(** * pakData lookup gateway: a shallow embedding of [paksimInfo.py]

    The development follows the request pipeline of the program:
    query classification, the rate limiter, the upstream fetch, the
    table parser and the request handler.  Python strings are lists of
    Unicode code points, exceptions are values of [exn], and code that
    can raise returns a [result]. *)

From Stdlib Require Import ZArith NArith QArith Lqa String Ascii SpecFloat.
From stdpp Require Import base option list gmap strings.

Set Default Proof Using "Type".

(** ** Strings and exceptions *)

(** A Python [str] is a sequence of code points. *)
Definition char := N.
Definition str := list char.

Definition chr (a : ascii) : char := N_of_ascii a.

(** [lit s] is the Python literal written with the ASCII text [s]. *)
Definition lit (s : string) : str := chr <$> list_ascii_of_string s.

(** The exceptions the program raises itself or receives from
    [requests] and from [bs4]. *)
Inductive exn :=
| ValueError (msg : str)
| PermissionError (msg : str)
| IndexError (msg : str)
| HTTPError (msg : str)
| RequestException (msg : str)
| ParserRejectedMarkup (msg : str).

(** [str(e)] *)
Definition exn_str (e : exn) : str :=
  match e with
  | ValueError m | PermissionError m | IndexError m
  | HTTPError m | RequestException m | ParserRejectedMarkup m => m
  end.

Inductive result (A : Type) :=
| Ok (a : A)
| Raise (e : exn).
Arguments Ok {A} a.
Arguments Raise {A} e.

(** Sequencing of statements that may raise: [x ← r; k] runs [k] when
    [r] returned and propagates the exception otherwise. *)
#[export] Instance result_ret : MRet result := λ A a, Ok a.
#[export] Instance result_bind : MBind result := λ A B k r,
  match r with
  | Ok a => k a
  | Raise e => Raise e
  end.

(** ** Unicode tables

    [str.strip()] removes the characters for which [str.isspace] holds
    and [\d] in a [str] pattern matches the characters of category Nd.
    Both tables belong to the interpreter; what is used of them is that
    the ASCII digits are decimal digits and that no decimal digit is
    white space. *)
Class UnicodeDB := {
  isspace : char → bool;
  isdecimal : char → bool;
  isdecimal_ascii : ∀ c : char, (48 ≤ c ≤ 57)%N → isdecimal c = true;
  isdecimal_not_space : ∀ c : char, isdecimal c = true → isspace c = false
}.

(** The two tables restricted to ASCII; they agree with the
    interpreter's on ASCII text. *)
Definition ascii_isspace (c : char) : bool :=
  bool_decide (c ∈ [9; 10; 11; 12; 13; 28; 29; 30; 31; 32]%N).

Definition ascii_isdecimal (c : char) : bool :=
  bool_decide (48 ≤ c ≤ 57)%N.

Definition ascii_tables : UnicodeDB.
Proof.
  refine {| isspace := ascii_isspace; isdecimal := ascii_isdecimal |}.
  - intros c Hc. by apply bool_decide_eq_true_2.
  - intros c Hc%bool_decide_eq_true. apply bool_decide_eq_false.
    rewrite !elem_of_cons, elem_of_nil. lia.
Defined.

(** ** String methods *)

(** [s.lstrip(...)] for the set of characters recognised by [p]. *)
Fixpoint lstrip_with (p : char → bool) (s : str) : str :=
  match s with
  | [] => []
  | c :: s' => if p c then lstrip_with p s' else s
  end.

(** [s.rstrip(...)] for the set of characters recognised by [p]. *)
Fixpoint rstrip_with (p : char → bool) (s : str) : str :=
  match s with
  | [] => []
  | c :: s' =>
      match rstrip_with p s' with
      | [] => if p c then [] else [c]
      | r => c :: r
      end
  end.

(** A string that [lstrip] has nothing to remove from. *)
Definition clean_head (p : char → bool) (s : str) : Prop :=
  match s with
  | [] => True
  | c :: _ => p c = false
  end.

(** [value.strip()] *)
Definition strip `{U : UnicodeDB} (s : str) : str :=
  rstrip_with isspace (lstrip_with isspace s).

(** [value.rstrip("/")] *)
Definition rstrip_slash (s : str) : str :=
  rstrip_with (λ c, bool_decide (c = chr "/")) s.

(** ** Query classifier *)
Section Classifier.
Context `{U : UnicodeDB}.

(** The patterns of the program are sequences of one-character
    atoms: a literal character or [\d]. *)
Inductive atom :=
| Lit (c : char)
| Digit.

Definition atom_matches (a : atom) (c : char) : bool :=
  match a with
  | Lit c' => bool_decide (c = c')
  | Digit => isdecimal c
  end.

(** [bool(re.fullmatch(p, s))]: the whole of [s] is consumed. *)
Fixpoint fullmatch (p : list atom) (s : str) : bool :=
  match p, s with
  | [], [] => true
  | a :: p', c :: s' => atom_matches a c && fullmatch p' s'
  | _, _ => false
  end.

(** [r"92\d{10}"] *)
Definition is_mobile (value : str) : bool :=
  fullmatch (Lit (chr "9") :: Lit (chr "2") :: replicate 10 Digit) value.

(** [r"03\d{9}"] *)
Definition is_local_mobile (value : str) : bool :=
  fullmatch (Lit (chr "0") :: Lit (chr "3") :: replicate 9 Digit) value.

(** [r"\d{13}"] *)
Definition is_cnic (value : str) : bool :=
  fullmatch (replicate 13 Digit) value.

Definition normalize_mobile (value : str) : str :=
  let value := strip value in
  if is_mobile value then value
  else if is_local_mobile value then lit "92" ++ drop 1 value
  else value.

Definition invalid_query_message : str :=
  lit "Invalid query. Use CNIC (13 digits) or mobile (03XXXXXXXXX / 92XXXXXXXXXX).".

Definition classify_query (value : str) : result (str * str) :=
  let v := strip value in
  if is_cnic v then Ok (lit "cnic", v)
  else
    let normalized := normalize_mobile v in
    if is_mobile normalized then Ok (lit "mobile", normalized)
    else Raise (ValueError invalid_query_message).

(** The three accepted formats, as the specification words them. *)
Definition digits (n : nat) (s : str) : Prop :=
  length s = n ∧ Forall (λ c, isdecimal c = true) s.

Definition cnic_format (v : str) : Prop := digits 13 v.

Definition local_mobile_format (v : str) : Prop :=
  ∃ ds, v = lit "03" ++ ds ∧ digits 9 ds.

Definition mobile_format (v : str) : Prop :=
  ∃ ds, v = lit "92" ++ ds ∧ digits 10 ds.

End Classifier.

(** ** The parsed document

    [BeautifulSoup(html, "html.parser")] builds a tree of page
    elements.  A string of the document is either a [NavigableString],
    which [get_text] collects, or a string of another class (comment,
    declaration, script or style content), which it leaves out.  Of a
    tag's attributes only the multi-valued [class] is inspected. *)
#[warnings="-register-all"] Inductive PageElement :=
| NavigableString (text : str)
| Comment (text : str)
| Tag (name : str) (class_ : list str) (contents : list PageElement).

(** The HTML parser is a capability of the library.  It reads most
    texts, however malformed, but rejects some markup with an
    exception ([ParserRejectedMarkup], raised for instance on an
    unknown marked section). *)
Class HtmlParser := {
  html_parser : str → result (list PageElement)
}.

(** [BeautifulSoup(html, "html.parser")]: the document object is a tag
    named [[document]] that holds the top-level elements. *)
Definition BeautifulSoup `{HP : HtmlParser} (html : str) : result PageElement :=
  contents ← html_parser html;
  mret (Tag (lit "[document]") [] contents).

(** [element.descendants]: every element below [e], in document order. *)
Fixpoint descendants (e : PageElement) : list PageElement :=
  match e with
  | Tag _ _ contents => flat_map (λ c, c :: descendants c) contents
  | _ => []
  end.

Definition matches_tag (name : str) (class_ : option str) (e : PageElement) : bool :=
  match e with
  | Tag n cs _ =>
      bool_decide (n = name) &&
      match class_ with
      | None => true
      | Some c => bool_decide (c ∈ cs)
      end
  | _ => false
  end.

(** [element.find_all(name, {"class": class_})] *)
Definition find_all (name : str) (class_ : option str) (e : PageElement)
  : list PageElement :=
  filter (λ d, matches_tag name class_ d = true) (descendants e).

(** [element.find(name, {"class": class_})]: the first match or [None]. *)
Definition find (name : str) (class_ : option str) (e : PageElement)
  : option PageElement :=
  head (find_all name class_ e).

Section Parser.
Context `{U : UnicodeDB}.

(** [element.get_text(strip=True)]: every navigable string below the
    element is stripped, the empty ones are dropped and the rest are
    joined without a separator. *)
Definition get_text_strip (e : PageElement) : str :=
  concat
    (filter (λ s, s ≠ [])
       (omap (λ d, match d with
                   | NavigableString s => Some (strip s)
                   | _ => None
                   end) (descendants e))).

(** One entry of the result list: the dict with the keys [mobile],
    [name], [cnic] and [address]. *)
Record Row := {
  mobile : option str;
  name : option str;
  cnic : option str;
  address : option str
}.

(** [l[i]] *)
Definition getitem {A} (l : list A) (i : nat) : result A :=
  match l !! i with
  | Some x => Ok x
  | None => Raise (IndexError (lit "list index out of range"))
  end.

(** [cols[i] if len(cols) > i else None] *)
Definition col_or_none (cols : list str) (i : nat) : result (option str) :=
  if bool_decide (i < length cols) then x ← getitem cols i; mret (Some x)
  else mret None.

(** [(mobile, cnic, name)] *)
Definition key : Type := option str * option str * option str.

(** [[td.get_text(strip=True) for td in tr.find_all("td")]] *)
Definition row_cols (tr : PageElement) : list str :=
  get_text_strip <$> find_all (lit "td") None tr.

(** The body of the loop over the rows, on the pair of [results] and
    [seen]. *)
Definition row_step (acc : list Row * gset key) (tr : PageElement)
  : result (list Row * gset key) :=
  let '(results, seen) := acc in
  let cols := row_cols tr in
  mobile ← col_or_none cols 0;
  name ← col_or_none cols 1;
  cnic ← col_or_none cols 2;
  address ← col_or_none cols 3;
  let key := (mobile, cnic, name) in
  if bool_decide (key ∈ seen) then mret (results, seen)
  else
    let seen := seen ∪ {[key]} in
    mret (results ++ [{| mobile := mobile; name := name;
                         cnic := cnic; address := address |}], seen).

(** [for tr in trs: ...] *)
Fixpoint for_rows (trs : list PageElement) (acc : list Row * gset key)
  : result (list Row * gset key) :=
  match trs with
  | [] => mret acc
  | tr :: trs' => acc' ← row_step acc tr; for_rows trs' acc'
  end.

(** [a or b] on optional tags; a tag is always true. *)
Definition or_else {A} (a b : option A) : option A :=
  match a with
  | Some _ => a
  | None => b
  end.

Definition parse_table `{HP : HtmlParser} (html : str) : result (list Row) :=
  soup ← BeautifulSoup html;
  let table := or_else (find (lit "table") (Some (lit "api-response")) soup)
                       (find (lit "table") None soup) in
  match table with
  | None => mret []
  | Some table =>
      match find (lit "tbody") None table with
      | None => mret []
      | Some tbody =>
          '(results, _) ← for_rows (find_all (lit "tr") None tbody) ([], ∅);
          mret results
      end
  end.

(** The record of a row: its cell texts in column order, a missing
    cell being [None]. *)
Definition row_record (tr : PageElement) : Row :=
  let cols := row_cols tr in
  {| mobile := cols !! 0; name := cols !! 1;
     cnic := cols !! 2; address := cols !! 3 |}.

End Parser.

(** [soup.find("table", {"class": "api-response"}) or soup.find("table")],
    for a text that the parser reads. *)
Definition selected_table `{HP : HtmlParser} (html : str) : option PageElement :=
  match BeautifulSoup html with
  | Ok soup =>
      or_else (find (lit "table") (Some (lit "api-response")) soup)
              (find (lit "table") None soup)
  | Raise _ => None
  end.

(** The data rows of a table body. *)
Definition table_rows (tbody : PageElement) : list PageElement :=
  find_all (lit "tr") None tbody.

(** The text of an element that is a navigable string. *)
Definition navigable (d : PageElement) : option str :=
  match d with
  | NavigableString s => Some s
  | _ => None
  end.

(** The navigable strings of an element, in document order. *)
Fixpoint strings (e : PageElement) : list str :=
  match e with
  | NavigableString s => [s]
  | Comment _ => []
  | Tag _ _ contents => flat_map strings contents
  end.

(** The text that [get_text(strip=True)] gives for a cell: every string
    of the cell stripped, the empty ones dropped, the rest joined. *)
Definition cell_text `{U : UnicodeDB} (td : PageElement) : str :=
  concat (filter (λ s, s ≠ []) (strip <$> strings td)).

(** The value of a cell as the specification words it: the text of the
    cell with the white space at its two ends stripped. *)
Definition cell_value `{U : UnicodeDB} (td : PageElement) : str :=
  strip (concat (strings td)).

(** The record of a row made of the values of its cells. *)
Definition stated_record `{U : UnicodeDB} (tr : PageElement) : Row :=
  let cells := cell_value <$> find_all (lit "td") None tr in
  {| mobile := cells !! 0; name := cells !! 1;
     cnic := cells !! 2; address := cells !! 3 |}.

(** A parser that answers every text with the same document; it lets
    the model run on a given tree. *)
Definition fixed_document (doc : list PageElement) : HtmlParser :=
  {| html_parser := λ _, Ok doc |}.

(** The text of a marked section with an unknown keyword, which the
    library's parser rejects, and the message of its exception. *)
Definition unknown_marked_section : str := lit "<![foo]>".

Definition rejected_markup_message : str :=
  lit "AssertionError: unknown status keyword 'foo' in marked section".

(** A parser that rejects that text, as the library's does, and
    answers every other text with the same document. *)
Definition rejecting_document (doc : list PageElement) : HtmlParser :=
  {| html_parser := λ html,
       if bool_decide (html = unknown_marked_section)
       then Raise (ParserRejectedMarkup rejected_markup_message)
       else Ok doc |}.

Definition row_key (r : Row) : key := (mobile r, cnic r, name r).

(** The deduplication as the specification words it: a record is kept
    when its key has not been seen before. *)
Fixpoint first_seen (seen : gset key) (rows : list Row) : list Row :=
  match rows with
  | [] => []
  | r :: rows' =>
      if bool_decide (row_key r ∈ seen) then first_seen seen rows'
      else r :: first_seen (seen ∪ {[row_key r]}) rows'
  end.


(** ** Configuration and the outside world *)

(** The module-level settings.  [MIN_INTERVAL] is the number given in
    the environment, which the program converts to a float. *)
Class Config := {
  TARGET_BASE : str;
  TARGET_PATH : str;
  ALLOW_UPSTREAM : bool;
  MIN_INTERVAL : Q
}.

Definition DEVELOPER : str := lit "Savitar".

(** The arguments of [session.post] and the part of its answer that the
    program reads. *)
Record PostRequest := {
  url : str;
  headers : list (str * str);
  data : list (str * str);
  timeout : Q
}.

Record HttpResponse := {
  status_code : Z;
  text : str
}.

(** The clock, the network and the arithmetic of the machine.  A
    timestamp or a duration is the rational value of a binary64 float,
    in seconds, and [fround] rounds an exact result to the float
    nearest to it.  Of the rounding one fact is used: the difference of
    two floats that differ is not rounded to zero.  A call may change
    the world it runs in. *)
Class Runtime := {
  World : Type;
  time_time : World → Q * World;
  time_sleep : Q → World → World;
  session_post : PostRequest → World → result HttpResponse * World;
  http_error_msg : HttpResponse → str;
  fround : Q → Q;
  fround_sub_pos : ∀ a b : Q,
    (fround a < fround b)%Q → (0 < fround (fround b - fround a))%Q
}.

(** The calls the program made to the clock and the network. *)
Inductive event :=
| EvTime (t : Q)
| EvSleep (d : Q)
| EvPost (r : PostRequest).

(** The mutable state of the process: [LAST_CALL["ts"]], the world, and
    the record of the calls made so far. *)
Record State `{RT : Runtime} := {
  LAST_CALL_ts : Q;
  world : World;
  trace : list event
}.

Section Fetcher.
Context `{CFG : Config} `{RT : Runtime}.

(** [time.time()] *)
Definition call_time (st : State) : Q * State :=
  let '(t, w) := time_time (world st) in
  (t, {| LAST_CALL_ts := LAST_CALL_ts st; world := w;
         trace := trace st ++ [EvTime t] |}).

(** [time.sleep(d)] *)
Definition call_sleep (d : Q) (st : State) : State :=
  {| LAST_CALL_ts := LAST_CALL_ts st; world := time_sleep d (world st);
     trace := trace st ++ [EvSleep d] |}.

(** [session.post(...)] *)
Definition call_post (r : PostRequest) (st : State) : result HttpResponse * State :=
  let '(resp, w) := session_post r (world st) in
  (resp, {| LAST_CALL_ts := LAST_CALL_ts st; world := w;
            trace := trace st ++ [EvPost r] |}).

(** [MIN_INTERVAL = float(os.getenv("MIN_INTERVAL", "1.0"))] *)
Definition min_interval : Q := fround MIN_INTERVAL.

(** The two subtractions are float subtractions; a comparison of
    floats is the comparison of their values. *)
Definition rate_limit_wait (st : State) : State :=
  let '(now, st) := call_time st in
  let elapsed := fround (now - LAST_CALL_ts st) in
  let st := if Qlt_le_dec elapsed min_interval
            then call_sleep (fround (min_interval - elapsed)) st
            else st in
  let '(t, st) := call_time st in
  {| LAST_CALL_ts := t; world := world st; trace := trace st |}.

(** [resp.raise_for_status()] *)
Definition raise_for_status (resp : HttpResponse) : result unit :=
  if bool_decide (400 ≤ status_code resp < 600)%Z
  then Raise (HTTPError (http_error_msg resp))
  else Ok ().

Definition fetch_upstream (query_value : str) (st : State) : result str * State :=
  if negb ALLOW_UPSTREAM
  then (Raise (PermissionError (lit "Upstream fetching disabled.")), st)
  else
    let st := rate_limit_wait st in
    let headers :=
      [ (lit "User-Agent",
         lit "Mozilla/5.0 (Windows NT 10.0; Win64; x64) " ++
         lit "AppleWebKit/537.36 (KHTML, like Gecko) " ++
         lit "Chrome/140.0.0.0 Safari/537.36");
        (lit "Referer", rstrip_slash TARGET_BASE ++ lit "/");
        (lit "Accept-Language", lit "en-US,en;q=0.9") ] in
    let url := rstrip_slash TARGET_BASE ++ TARGET_PATH in
    let data := [ (lit "search_query", query_value) ] in
    let '(r, st) := call_post {| url := url; headers := headers;
                                 data := data; timeout := 20 |} st in
    match r with
    | Raise e => (Raise e, st)
    | Ok resp =>
        match raise_for_status resp with
        | Raise e => (Raise e, st)
        | Ok _ => (Ok (text resp), st)
        end
    end.
End Fetcher.

(** The events of the limiter: readings of the clock and sleeps of a
    positive length. *)
Definition limiter_event (e : event) : Prop :=
  match e with
  | EvTime _ => True
  | EvSleep d => (0 < d)%Q
  | EvPost _ => False
  end.

Definition is_sleep (e : event) : bool :=
  match e with
  | EvSleep _ => true
  | _ => false
  end.

(** The request that [fetch_upstream] posts for a value. *)
Definition upstream_request `{CFG : Config} (query_value : str) : PostRequest :=
  {| url := rstrip_slash TARGET_BASE ++ TARGET_PATH;
     headers :=
       [ (lit "User-Agent",
          lit "Mozilla/5.0 (Windows NT 10.0; Win64; x64) " ++
          lit "AppleWebKit/537.36 (KHTML, like Gecko) " ++
          lit "Chrome/140.0.0.0 Safari/537.36");
         (lit "Referer", rstrip_slash TARGET_BASE ++ lit "/");
         (lit "Accept-Language", lit "en-US,en;q=0.9") ];
     data := [ (lit "search_query", query_value) ];
     timeout := 20 |}.

(** ** Responses *)

(** The values handed to [json.dumps]. *)
#[warnings="-register-all"] Inductive json :=
| JNone
| JStr (s : str)
| JInt (n : Z)
| JList (items : list json)
| JDict (items : list (str * json)).

Definition json_of_option (o : option str) : json :=
  match o with
  | Some s => JStr s
  | None => JNone
  end.

Definition json_of_row (r : Row) : json :=
  JDict [ (lit "mobile", json_of_option (mobile r));
          (lit "name", json_of_option (name r));
          (lit "cnic", json_of_option (cnic r));
          (lit "address", json_of_option (address r)) ].

Definition make_response_object (query qtype : str) (results : list Row) : json :=
  JDict [ (lit "query", JStr query);
          (lit "query_type", JStr qtype);
          (lit "results_count", JInt (Z.of_nat (length results)));
          (lit "results", JList (json_of_row <$> results));
          (lit "developer", JStr DEVELOPER) ].

(** The [Response] built by [respond_json]: its text is
    [json.dumps(obj, indent=..., ensure_ascii=False)]. *)
Record Response := {
  obj : json;
  indent : option Z;
  mimetype : str
}.

Definition respond_json (o : json) (pretty : bool) : Response :=
  {| obj := o;
     indent := if pretty then Some 2%Z else None;
     mimetype := lit "application/json; charset=utf-8" |}.

(** ** The lookup route *)

(** [request.args]: the pairs of the query string, in order. *)
Record Request := {
  args : list (str * str)
}.

(** [request.args.get(k)]: the first value given for [k]. *)
Definition args_get (r : Request) (k : str) : option str :=
  snd <$> head (filter (λ p, p.1 = k) (args r)).

(** Truth value of an optional string: [None] and [""] are false. *)
Definition truthy (o : option str) : bool :=
  match o with
  | Some (_ :: _) => true
  | _ => false
  end.

(** [a or b] *)
Definition py_or (a b : option str) : option str :=
  if truthy a then a else b.

(** The request as the specification words it.  [first_arg r k v]: the
    first pair of the query string with the key [k] has the value [v].
    [no_arg r k]: the query string has no pair with the key [k], or the
    first one has the empty value. *)
Definition first_arg (r : Request) (k v : str) : Prop :=
  ∃ before after,
    args r = before ++ (k, v) :: after ∧ ∀ p, p ∈ before → p.1 ≠ k.

Definition no_arg (r : Request) (k : str) : Prop :=
  (∀ p, p ∈ args r → p.1 ≠ k) ∨ first_arg r k [].

(** The request carries the query value [v]: [v] is not empty and is
    given under [query], or under [q] when [query] gives nothing, or
    under [value] when neither does. *)
Definition carries_query (r : Request) (v : str) : Prop :=
  v ≠ []
  ∧ (first_arg r (lit "query") v
     ∨ (no_arg r (lit "query") ∧ first_arg r (lit "q") v)
     ∨ (no_arg r (lit "query") ∧ no_arg r (lit "q")
        ∧ first_arg r (lit "value") v)).

Definition error_object (e : exn) : json :=
  JDict [ (lit "error", JStr (lit "Fetch failed"));
          (lit "detail", JStr (exn_str e));
          (lit "developer", JStr DEVELOPER) ].

Section Routes.
Context `{U : UnicodeDB} `{HP : HtmlParser} `{CFG : Config} `{RT : Runtime}.

(** [request.args.get("query") or request.args.get("q") or
    request.args.get("value")] *)
Definition request_query (r : Request) : option str :=
  py_or (py_or (args_get r (lit "query")) (args_get r (lit "q")))
        (args_get r (lit "value")).

(** [request.args.get("pretty") in ("1", "true", "True")] *)
Definition request_pretty (r : Request) : bool :=
  bool_decide (args_get r (lit "pretty")
               ∈ [Some (lit "1"); Some (lit "true"); Some (lit "True")]).

(** The handler returns the response and its status; a response
    returned without a status is sent with 200. *)
Definition api_lookup_get (r : Request) (st : State) : (Response * Z) * State :=
  let q := request_query r in
  let pretty := request_pretty r in
  match q with
  | Some ((_ :: _) as q) =>
      match classify_query q with
      | Raise e => ((respond_json (error_object e) pretty, 500%Z), st)
      | Ok (qtype, normalized) =>
          let '(html, st) := fetch_upstream normalized st in
          match html with
          | Raise e => ((respond_json (error_object e) pretty, 500%Z), st)
          | Ok html =>
              match parse_table html with
              | Raise e => ((respond_json (error_object e) pretty, 500%Z), st)
              | Ok results =>
                  ((respond_json (make_response_object normalized qtype results)
                      pretty, 200%Z), st)
              end
          end
      end
  | _ =>
      ((respond_json
          (JDict [ (lit "error", JStr (lit "Use ?query=<mobile or cnic>"));
                   (lit "developer", JStr DEVELOPER) ]) pretty, 400%Z), st)
  end.
End Routes.

(** ** The other lookup routes *)

(** The values of a parsed JSON body.  A dict is the list of its items,
    the keys being distinct.  Of a float the program observes the type
    and whether it is zero. *)
Inductive pyfloat :=
| FNaN
| FInf (negative : bool)
| FFinite (q : Q).

#[warnings="-register-all"] Inductive pyval :=
| PNone
| PBool (b : bool)
| PInt (n : Z)
| PFloat (f : pyfloat)
| PStr (s : str)
| PList (items : list pyval)
| PDict (items : list (str * pyval)).

(** [bool(v)] *)
Definition py_bool (v : pyval) : bool :=
  match v with
  | PNone => false
  | PBool b => b
  | PInt n => negb (n =? 0)%Z
  | PFloat FNaN | PFloat (FInf _) => true
  | PFloat (FFinite q) => negb (Qnum q =? 0)%Z
  | PStr s => negb (bool_decide (s = []))
  | PList items => negb (bool_decide (items = []))
  | PDict items => match items with [] => false | _ => true end
  end.

(** [type(v).__name__] *)
Definition type_name (v : pyval) : str :=
  match v with
  | PNone => lit "NoneType"
  | PBool _ => lit "bool"
  | PInt _ => lit "int"
  | PFloat _ => lit "float"
  | PStr _ => lit "str"
  | PList _ => lit "list"
  | PDict _ => lit "dict"
  end.

(** The exceptions of a route: those of the pipeline and the
    [AttributeError] of a method call on a value that lacks the method. *)
Inductive route_exn :=
| Exn (e : exn)
| AttributeError (msg : str).

(** [str(e)] *)
Definition route_exn_str (e : route_exn) : str :=
  match e with
  | Exn e => exn_str e
  | AttributeError msg => msg
  end.

Definition no_attribute (v : pyval) (attr : string) : route_exn :=
  AttributeError (lit "'" ++ type_name v ++ lit "' object has no attribute '"
                  ++ lit attr ++ lit "'").

(** What a handler does: it returns, or an exception leaves it. *)
Inductive outcome (A : Type) :=
| Returned (a : A)
| Escaped (e : route_exn).
Arguments Returned {A} a.
Arguments Escaped {A} e.

(** [data.get(k)] *)
Definition data_get (data : pyval) (k : str) : outcome pyval :=
  match data with
  | PDict items =>
      Returned (default PNone (snd <$> head (filter (λ p, p.1 = k) items)))
  | _ => Escaped (no_attribute data "get")
  end.

(** [a or b], the right operand being evaluated when [a] is false. *)
Definition val_or (a : pyval) (b : outcome pyval) : outcome pyval :=
  if py_bool a then Returned a else b.

(** The double quote character. *)
Definition dquote : str := [34%N].

Section OtherRoutes.
Context `{U : UnicodeDB} `{HP : HtmlParser} `{CFG : Config} `{RT : Runtime}.

(** [GET /api/lookup/<path:q>]: the query is the rest of the path. *)
Definition api_lookup_path (q : str) (r : Request) (st : State)
  : (Response * Z) * State :=
  let pretty := request_pretty r in
  match classify_query q with
  | Raise e => ((respond_json (error_object e) pretty, 500%Z), st)
  | Ok (qtype, normalized) =>
      let '(html, st) := fetch_upstream normalized st in
      match html with
      | Raise e => ((respond_json (error_object e) pretty, 500%Z), st)
      | Ok html =>
          match parse_table html with
          | Raise e => ((respond_json (error_object e) pretty, 500%Z), st)
          | Ok results =>
              ((respond_json (make_response_object normalized qtype results)
                  pretty, 200%Z), st)
          end
      end
  end.

(** [request.get_json(force=True, silent=True) or {}]; [body] is what
    [get_json] returned, [None] for a body that is not JSON. *)
Definition posted_data (body : option pyval) : pyval :=
  match body with
  | Some v => if py_bool v then v else PDict []
  | None => PDict []
  end.

(** [data.get("query") or data.get("number") or data.get("value")] *)
Definition posted_query (data : pyval) : outcome pyval :=
  match data_get data (lit "query") with
  | Escaped e => Escaped e
  | Returned a =>
      match val_or a (data_get data (lit "number")) with
      | Escaped e => Escaped e
      | Returned b => val_or b (data_get data (lit "value"))
      end
  end.

(** [POST /api/lookup] *)
Definition api_lookup_post (r : Request) (body : option pyval) (st : State)
  : outcome (Response * Z) * State :=
  let pretty := request_pretty r in
  let data := posted_data body in
  match posted_query data with
  | Escaped e => (Escaped e, st)
  | Returned q =>
      if negb (py_bool q)
      then (Returned
              (respond_json
                 (JDict [ (lit "error",
                           JStr (lit "Send JSON {" ++ dquote ++ lit "query"
                                 ++ dquote ++ lit ":" ++ dquote ++ lit "..."
                                 ++ dquote ++ lit "}"));
                          (lit "developer", JStr DEVELOPER) ]) pretty, 400%Z),
            st)
      else
        match q with
        | PStr q =>
            match classify_query q with
            | Raise e =>
                (Returned (respond_json (error_object e) pretty, 500%Z), st)
            | Ok (qtype, normalized) =>
                let '(html, st) := fetch_upstream normalized st in
                match html with
                | Raise e =>
                    (Returned (respond_json (error_object e) pretty, 500%Z), st)
                | Ok html =>
                    match parse_table html with
                    | Raise e =>
                        (Returned (respond_json (error_object e) pretty, 500%Z),
                         st)
                    | Ok results =>
                        (Returned
                           (respond_json
                              (make_response_object normalized qtype results)
                              pretty, 200%Z), st)
                    end
                end
            end
        | _ =>
            (* [value.strip()] on a value that is not a string *)
            (Returned
               (respond_json
                  (JDict [ (lit "error", JStr (lit "Fetch failed"));
                           (lit "detail",
                            JStr (route_exn_str (no_attribute q "strip")));
                           (lit "developer", JStr DEVELOPER) ]) pretty, 500%Z),
             st)
        end
  end.
End OtherRoutes.

(** ** Sample data

    Small documents, a configuration and a world to run the model on. *)

Definition cell (s : string) : PageElement :=
  Tag (lit "td") [] [NavigableString (lit s)].

Definition row (cells : list PageElement) : PageElement :=
  Tag (lit "tr") [] cells.

Definition person_row (who where_ : string) : PageElement :=
  row [cell "03001234567"; cell who; cell "1234567890123"; cell where_].

Definition results_table (contents : list PageElement) : PageElement :=
  Tag (lit "table") [lit "api-response"] contents.

Definition body (rows : list PageElement) : PageElement :=
  Tag (lit "tbody") [] rows.

Definition same_key_document : list PageElement :=
  [results_table [body [person_row "Ali" "Lahore"; person_row "Ali" "Karachi"]]].

Definition distinct_document : list PageElement :=
  [results_table [body [person_row "Ali" "Lahore"; person_row "Sara" "Lahore"]]].

(** A table whose one row has a name cell with markup inside,
    [<td>Muhammad <b>Ali</b></td>]. *)
Definition markup_row : PageElement :=
  row [cell "03001234567";
       Tag (lit "td") []
         [NavigableString (lit "Muhammad ");
          Tag (lit "b") [] [NavigableString (lit "Ali")]];
       cell "1234567890123"; cell "Lahore"].

Definition markup_document : list PageElement :=
  [results_table [body [markup_row]]].

(** A table whose one row has two cells. *)
Definition short_row : PageElement := row [cell "03001234567"; cell " Ali "].

Definition short_row_document : list PageElement :=
  [results_table [body [short_row]]].

Definition bare_rows_table : PageElement :=
  results_table [person_row "Ali" "Lahore"; person_row "Sara" "Lahore"].

(** A world that is nothing but its clock: reading the time takes no
    time, sleeping takes exactly the time asked for, every request is
    answered with an empty page, and the numbers that occur are floats
    whose differences are floats, so that nothing is rounded. *)
Definition clock_runtime : Runtime.
Proof.
  refine {| World := Q;
            time_time := λ w, (w, w);
            time_sleep := λ d w, (w + d)%Q;
            session_post := λ _ w, (Ok {| status_code := 200; text := [] |}, w);
            http_error_msg := λ _, lit "error";
            fround := λ x, x |}.
  intros a b Hab. lra.
Defined.

Definition example_config (allow : bool) : Config :=
  {| TARGET_BASE := lit "https://pakistandatabase.com";
     TARGET_PATH := lit "/databases/sim.php";
     ALLOW_UPSTREAM := allow;
     MIN_INTERVAL := 1 |}.

Definition clock_state (t : Q) : State (RT := clock_runtime) :=
  Build_State clock_runtime 0 t [].

(** A clock world in which every request is answered with the given
    status and page. *)
Definition answering_runtime (code : Z) (page : str) : Runtime.
Proof.
  refine {| World := Q;
            time_time := λ w, (w, w);
            time_sleep := λ d w, (w + d)%Q;
            session_post :=
              λ _ w, (Ok {| status_code := code; text := page |}, w);
            http_error_msg := λ _, lit "error";
            fround := λ x, x |}.
  intros a b Hab. lra.
Defined.

(** The floats nearest to 0.2 and to 1.2.  Their difference is
    1 - 2^-54, half way between the float 1 and the float below it. *)
Definition double_0_2 : Q := 3602879701896397 # 18014398509481984.
Definition double_1_2 : Q := 5404319552844595 # 4503599627370496.

(** The same two floats as binary64 records, and the value of a finite
    record. *)
Definition binary64_0_2 : spec_float := S754_finite false 7205759403792794 (-55).
Definition binary64_1_2 : spec_float := S754_finite false 5404319552844595 (-52).

Definition binary64_value (x : spec_float) : Q :=
  match x with
  | S754_finite s m e =>
      ((if s then -1 else 1) * inject_Z (Z.pos m) * Qpower 2 e)%Q
  | _ => 0
  end.

(** A rounding that agrees with binary64 on the numbers of the run
    below: the difference of the two floats is rounded to 1, the tie
    going to the even float, and every other number that occurs is a
    float already. *)
Definition tie_round (x : Q) : Q :=
  if Qeq_bool x (double_1_2 - double_0_2) then 1 else x.

Definition tie_runtime : Runtime.
Proof.
  refine {| World := Q;
            time_time := λ w, (w, w);
            time_sleep := λ d w, (w + d)%Q;
            session_post := λ _ w, (Ok {| status_code := 200; text := [] |}, w);
            http_error_msg := λ _, lit "error";
            fround := tie_round |}.
  intros a b Hab. unfold tie_round at 1.
  destruct (Qeq_bool _ _); [reflexivity|lra].
Defined.

Definition tie_state (last now : Q) : State (RT := tie_runtime) :=
  Build_State tie_runtime last now [].

Definition answering_state (code : Z) (page : str) (t : Q)
  : State (RT := answering_runtime code page) :=
  Build_State (answering_runtime code page) 0 t [].

(** The record of a row with two cells. *)
Definition short_row_record : Row :=
  {| mobile := Some (lit "03001234567"); name := Some (lit "Ali");
     cnic := None; address := None |}.

(** A body that starts with a header row of [th] cells. *)
Definition header_document : list PageElement :=
  [results_table
     [body [row [Tag (lit "th") [] [NavigableString (lit "Mobile")];
                 Tag (lit "th") [] [NavigableString (lit "Name")]];
            person_row "Ali" "Lahore"]]].

(** * Properties *)

(** ** Stripping *)
Section StripFacts.
Variable p : char → bool.

Lemma lstrip_with_clean s : clean_head p (lstrip_with p s).
Proof.
  induction s as [|c s IH]; simpl; [done|].
  destruct (p c) eqn:Hc; [done|]. simpl. done.
Qed.

Lemma lstrip_with_id s : clean_head p s → lstrip_with p s = s.
Proof. destruct s as [|c s]; simpl; [done|]. by intros ->. Qed.

Lemma rstrip_with_clean s : clean_head p s → clean_head p (rstrip_with p s).
Proof.
  destruct s as [|c s]; simpl; [done|]. intros Hc.
  destruct (rstrip_with p s); simpl; [by rewrite Hc|done].
Qed.

Lemma rstrip_with_idem s : rstrip_with p (rstrip_with p s) = rstrip_with p s.
Proof.
  induction s as [|c s IH]; simpl; [done|].
  destruct (rstrip_with p s) as [|d r] eqn:Hr.
  - destruct (p c) eqn:Hc; simpl; [done|]. by rewrite Hc.
  - change (rstrip_with p (c :: d :: r)) with
      (match rstrip_with p (d :: r) with
       | [] => if p c then [] else [c]
       | r' => c :: r'
       end).
    by rewrite IH.
Qed.

Lemma rstrip_with_id s : Forall (λ c, p c = false) s → rstrip_with p s = s.
Proof.
  induction 1 as [|c s Hc _ IH]; simpl; [done|].
  rewrite IH, Hc. by destruct s.
Qed.
End StripFacts.

Section ClassifierFacts.
Context `{U : UnicodeDB}.

Lemma strip_idem s : strip (strip s) = strip s.
Proof.
  unfold strip.
  rewrite (lstrip_with_id isspace (rstrip_with isspace _)).
  - apply rstrip_with_idem.
  - apply rstrip_with_clean, lstrip_with_clean.
Qed.

(** A string of decimal digits has nothing to strip. *)
Lemma strip_decimal s : Forall (λ c, isdecimal c = true) s → strip s = s.
Proof.
  intros Hs. unfold strip.
  assert (Hn : Forall (λ c, isspace c = false) s).
  { eapply Forall_impl; [exact Hs|]. apply isdecimal_not_space. }
  rewrite lstrip_with_id by (destruct Hn; simpl; done).
  by apply rstrip_with_id.
Qed.

Lemma fullmatch_digits n s :
  fullmatch (replicate n Digit) s = true ↔ digits n s.
Proof.
  unfold digits. revert s.
  induction n as [|n IH]; intros [|c s]; simpl.
  - split; [by split|done].
  - split; [done|]. intros [? _]. done.
  - split; [done|]. intros [? _]. done.
  - rewrite andb_true_iff, IH, Forall_cons. split.
    + intros (Hc & Hlen & Hs). by rewrite Hlen.
    + intros (Hlen & Hc & Hs). by simplify_eq.
Qed.

Lemma fullmatch_lit c q s :
  fullmatch (Lit c :: q) s = true ↔ ∃ s', s = c :: s' ∧ fullmatch q s' = true.
Proof.
  destruct s as [|d s]; simpl.
  - split; [done|]. by intros (? & ? & ?).
  - rewrite andb_true_iff, bool_decide_eq_true. split.
    + intros [-> Hs]. eauto.
    + intros (s' & [= -> ->] & Hs). done.
Qed.

Lemma is_cnic_spec v : is_cnic v = true ↔ cnic_format v.
Proof. apply fullmatch_digits. Qed.

Lemma is_local_mobile_spec v : is_local_mobile v = true ↔ local_mobile_format v.
Proof.
  unfold is_local_mobile, local_mobile_format. rewrite fullmatch_lit. split.
  - intros (s1 & -> & (s2 & -> & Hd%fullmatch_digits)%fullmatch_lit). eauto.
  - intros (ds & -> & Hd). eexists. split; [done|].
    apply fullmatch_lit. eexists. split; [done|]. by apply fullmatch_digits.
Qed.

Lemma is_mobile_spec v : is_mobile v = true ↔ mobile_format v.
Proof.
  unfold is_mobile, mobile_format. rewrite fullmatch_lit. split.
  - intros (s1 & -> & (s2 & -> & Hd%fullmatch_digits)%fullmatch_lit). eauto.
  - intros (ds & -> & Hd). eexists. split; [done|].
    apply fullmatch_lit. eexists. split; [done|]. by apply fullmatch_digits.
Qed.

Lemma digit_three : isdecimal (chr "3") = true.
Proof. apply isdecimal_ascii. vm_compute. split; discriminate. Qed.

(** The rewritten form of a local number is an international one. *)
Lemma local_rewritten v :
  local_mobile_format v → mobile_format (lit "92" ++ drop 1 v).
Proof.
  intros (ds & -> & Hlen & Hds). exists (chr "3" :: ds). split; [done|].
  split; [simpl; by rewrite Hlen|].
  apply Forall_cons. split; [apply digit_three|done].
Qed.

Lemma local_not_mobile v : local_mobile_format v → is_mobile v = false.
Proof.
  intros (ds & -> & _). apply not_true_is_false.
  intros (ds' & Heq & _)%is_mobile_spec. vm_compute in Heq. discriminate.
Qed.

Lemma is_mobile_normalize v :
  strip v = v →
  is_mobile (normalize_mobile v) = is_mobile v || is_local_mobile v.
Proof.
  intros Hv. unfold normalize_mobile. rewrite Hv.
  destruct (is_mobile v) eqn:Hm; [done|].
  destruct (is_local_mobile v) eqn:Hl; [|done]. simpl.
  by apply is_mobile_spec, local_rewritten, is_local_mobile_spec.
Qed.
End ClassifierFacts.

Section ClassifierClaims.
Context `{U : UnicodeDB}.

(** C1: an input whose trimmed value is [03] followed by nine digits
    is classified as mobile, and the normalized value is [92]
    followed by what remains of the trimmed value after its leading
    [0]: ten digits, twelve characters in all.  The trimmed value is
    the input itself when the input has the format already. *)
Theorem classify_query_local_mobile (value ds : str) :
  strip value = lit "03" ++ ds →
  digits 9 ds →
  classify_query value = Ok (lit "mobile", lit "92" ++ drop 1 (strip value))
  ∧ digits 10 (drop 1 (strip value))
  ∧ length (lit "92" ++ drop 1 (strip value)) = 12
  ∧ strip (lit "03" ++ ds) = lit "03" ++ ds.
Proof.
  intros Hv Hds.
  assert (Hloc : local_mobile_format (strip value)) by (exists ds; done).
  assert (Hcnic : is_cnic (strip value) = false).
  { apply not_true_is_false. intros [Hlen _]%is_cnic_spec.
    rewrite Hv in Hlen. destruct Hds as [Hl _]. simpl in Hlen. lia. }
  destruct (local_rewritten _ Hloc) as (ds' & Heq & Hds').
  apply (inj (app (lit "92"))) in Heq.
  split; [|split; [|split]].
  - unfold classify_query. rewrite Hcnic.
    rewrite (is_mobile_normalize _ (strip_idem value)).
    rewrite (local_not_mobile _ Hloc).
    rewrite (proj2 (is_local_mobile_spec _) Hloc). simpl.
    unfold normalize_mobile. rewrite strip_idem.
    by rewrite (local_not_mobile _ Hloc), (proj2 (is_local_mobile_spec _) Hloc).
  - by rewrite Heq.
  - rewrite Heq. destruct Hds' as [Hl _]. simpl. by rewrite Hl.
  - apply strip_decimal. destruct Hds as [_ Hds].
    repeat (apply Forall_cons; split;
            [apply isdecimal_ascii; vm_compute; split; discriminate|]).
    done.
Qed.

(** C2: an input whose trimmed value is thirteen decimal digits is
    classified as a national id (the tag [cnic] of the program) and
    the value returned is the trimmed value itself, which is the
    input when the input is thirteen digits already. *)
Theorem classify_query_cnic (value : str) :
  digits 13 (strip value) →
  classify_query value = Ok (lit "cnic", strip value)
  ∧ (digits 13 value → classify_query value = Ok (lit "cnic", value)).
Proof.
  intros Hd. unfold classify_query.
  rewrite (proj2 (is_cnic_spec _) Hd). split; [done|].
  intros [_ Hv]. by rewrite (strip_decimal _ Hv).
Qed.

(** C3: classification raises exactly when the whole trimmed input
    has none of the three accepted formats; the exception is the one
    whose message names the CNIC and the mobile formats, and no other
    exception is raised. *)
Theorem classify_query_invalid_iff (value : str) :
  (classify_query value = Raise (ValueError invalid_query_message)
   ↔ ¬ (cnic_format (strip value)
        ∨ local_mobile_format (strip value)
        ∨ mobile_format (strip value)))
  ∧ (∀ e, classify_query value = Raise e → e = ValueError invalid_query_message)
  ∧ invalid_query_message =
      lit "Invalid query. Use " ++ lit "CNIC (13 digits)" ++ lit " or "
      ++ lit "mobile (03XXXXXXXXX / 92XXXXXXXXXX)" ++ lit ".".
Proof.
  split; [|split; [|reflexivity]].
  - unfold classify_query.
    rewrite <- is_cnic_spec, <- is_local_mobile_spec, <- is_mobile_spec.
    destruct (is_cnic (strip value)) eqn:Hc.
    { split; [done|]. intros Hn. destruct Hn. by left. }
    rewrite (is_mobile_normalize _ (strip_idem value)).
    destruct (is_mobile (strip value)) eqn:Hm; simpl.
    { split; [done|]. intros Hn. destruct Hn. by right; right. }
    destruct (is_local_mobile (strip value)) eqn:Hl.
    { split; [done|]. intros Hn. destruct Hn. by right; left. }
    split; [|done]. intros _ [?|[?|?]]; done.
  - intros e. unfold classify_query.
    destruct (is_cnic _); [done|]. destruct (is_mobile _); [done|].
    by intros [= <-].
Qed.
End ClassifierClaims.

(** The first scenario of the specification, with blanks around the
    query. *)
Lemma classify_query_local_mobile_witness :
  classify_query (U := ascii_tables) (lit " 03001234567 ")
  = Ok (lit "mobile", lit "923001234567")
  ∧ length (lit "923001234567") = 12.
Proof.
  destruct (classify_query_local_mobile (U := ascii_tables)
              (lit " 03001234567 ") (lit "001234567"))
    as (Hq & _ & Hlen & _).
  - reflexivity.
  - split; [reflexivity|]. by repeat constructor.
  - split; [exact Hq|exact Hlen].
Defined.

(** The second scenario of the specification. *)
Lemma classify_query_cnic_witness :
  classify_query (U := ascii_tables) (lit "1234567890123")
  = Ok (lit "cnic", lit "1234567890123").
Proof.
  refine (proj1 (classify_query_cnic (U := ascii_tables)
                   (lit "1234567890123") _)).
  split; [reflexivity|]. by repeat constructor.
Defined.

(** A match inside a longer string does not count: fourteen digits
    hold a run of thirteen, and a local number with a letter in front
    holds a local number. *)
Example classify_query_substring :
  classify_query (U := ascii_tables) (lit "12345678901234")
  = Raise (ValueError invalid_query_message)
  ∧ classify_query (U := ascii_tables) (lit "x03001234567")
    = Raise (ValueError invalid_query_message)
  ∧ classify_query (U := ascii_tables) (lit "abc")
    = Raise (ValueError invalid_query_message).
Proof. by vm_compute. Qed.

(** ** Table parser *)

Section ParserFacts.
Context `{U : UnicodeDB}.

Lemma col_or_none_lookup cols i : col_or_none cols i = Ok (cols !! i).
Proof.
  unfold col_or_none, getitem. case_bool_decide as Hi.
  - destruct (lookup_lt_is_Some_2 cols i Hi) as [x Hx]. by rewrite Hx.
  - rewrite (proj2 (lookup_ge_None cols i)); [done|lia].
Qed.

Lemma row_step_record results seen tr :
  row_step (results, seen) tr =
  Ok (if bool_decide (row_key (row_record tr) ∈ seen) then (results, seen)
      else (results ++ [row_record tr], seen ∪ {[row_key (row_record tr)]})).
Proof.
  unfold row_step. rewrite !col_or_none_lookup. simpl.
  change (row_cols tr !! 0, row_cols tr !! 2, row_cols tr !! 1)
    with (row_key (row_record tr)).
  by destruct (bool_decide _).
Qed.

Lemma for_rows_first_seen trs results seen :
  ∃ seen', for_rows trs (results, seen) =
           Ok (results ++ first_seen seen (row_record <$> trs), seen').
Proof.
  revert results seen. induction trs as [|tr trs IH]; intros results seen.
  - exists seen. simpl. by rewrite app_nil_r.
  - cbn [for_rows fmap list_fmap first_seen].
    rewrite row_step_record. cbn [mbind result_bind].
    destruct (bool_decide (row_key (row_record tr) ∈ seen)).
    + apply IH.
    + destruct (IH (results ++ [row_record tr])
                   (seen ∪ {[row_key (row_record tr)]})) as [seen' ->].
      exists seen'. by rewrite <- app_assoc.
Qed.

(** Facts about [first_seen]. *)
Lemma first_seen_fresh seen rows r :
  r ∈ first_seen seen rows → (row_key r ∉ seen) ∧ (r ∈ rows).
Proof.
  revert seen. induction rows as [|r0 rows IH]; intros seen; simpl.
  - by intros ?%elem_of_nil.
  - case_bool_decide as Hk.
    + intros [? ?]%IH. split; [done|]. by right.
    + intros [->|Hin]%elem_of_cons.
      * split; [done|]. by left.
      * apply IH in Hin as [Hn ?]. split; [|by right].
        intros ?. apply Hn, elem_of_union. by left.
Qed.

Lemma first_seen_NoDup seen rows : NoDup (row_key <$> first_seen seen rows).
Proof.
  revert seen. induction rows as [|r0 rows IH]; intros seen; simpl.
  - constructor.
  - case_bool_decide as Hk; [apply IH|].
    rewrite fmap_cons. constructor; [|apply IH].
    intros (r & Heq & Hin)%list_elem_of_fmap.
    apply first_seen_fresh in Hin as [Hn _].
    apply Hn, elem_of_union. right. by apply elem_of_singleton.
Qed.

Lemma first_seen_distinct seen rows :
  NoDup (row_key <$> rows) →
  (∀ r, r ∈ rows → row_key r ∉ seen) →
  first_seen seen rows = rows.
Proof.
  revert seen. induction rows as [|r0 rows IH]; intros seen; simpl; [done|].
  intros [Hr0 Hnd]%NoDup_cons Hseen.
  rewrite bool_decide_eq_false_2 by (apply Hseen; by left).
  f_equal. apply IH; [done|]. intros r Hr.
  assert (row_key r ≠ row_key r0).
  { intros Heq. apply Hr0. rewrite <- Heq. by apply list_elem_of_fmap_2. }
  intros [?|?%elem_of_singleton]%elem_of_union; [|done].
  by apply (Hseen r); [right|].
Qed.

(** The kept record of a key is that of its first occurrence. *)
Lemma first_seen_first seen rows i r :
  rows !! i = Some r →
  row_key r ∉ seen →
  ∃ f rf, f ≤ i ∧ rows !! f = Some rf ∧ row_key rf = row_key r
    ∧ (∀ k rk, k < f → rows !! k = Some rk → row_key rk ≠ row_key r)
    ∧ rf ∈ first_seen seen rows
    ∧ (∀ r', r' ∈ first_seen seen rows → row_key r' = row_key r → r' = rf).
Proof.
  revert seen i. induction rows as [|r0 rows IH]; intros seen i; [done|].
  intros Hi Hseen. simpl.
  destruct (decide (row_key r0 = row_key r)) as [Heq|Hne].
  - exists 0, r0. rewrite bool_decide_eq_false_2 by (by rewrite Heq).
    split; [lia|]. split; [done|]. split; [done|].
    split; [intros; lia|]. split; [by left|].
    intros r' [->|Hin]%elem_of_cons Hk; [done|].
    apply first_seen_fresh in Hin as [Hn _]. destruct Hn.
    apply elem_of_union. right. apply elem_of_singleton. by rewrite Hk.
  - destruct i as [|i]; [simpl in Hi; by simplify_eq|]. simpl in Hi.
    case_bool_decide as Hk.
    + destruct (IH seen i Hi Hseen) as (f & rf & Hf & Hrf & Hkey & Hmin & Hin & Huniq).
      exists (S f), rf. split; [lia|]. split; [done|]. split; [done|].
      split; [|done]. intros [|k] rk Hlt Hrk; simpl in Hrk; [by simplify_eq|].
      apply (Hmin k); [lia|done].
    + destruct (IH (seen ∪ {[row_key r0]}) i Hi)
        as (f & rf & Hf & Hrf & Hkey & Hmin & Hin & Huniq).
      { intros [?|?%elem_of_singleton]%elem_of_union; done. }
      exists (S f), rf. split; [lia|]. split; [done|]. split; [done|].
      split.
      { intros [|k] rk Hlt Hrk; simpl in Hrk; [by simplify_eq|].
        apply (Hmin k); [lia|done]. }
      split; [by right|].
      intros r' [->|Hin']%elem_of_cons Hk'; [done|]. by apply Huniq.
Qed.
End ParserFacts.

Section ParserClaims.
Context `{U : UnicodeDB} `{HP : HtmlParser}.

Lemma parse_table_rows html table tbody :
  selected_table html = Some table →
  find (lit "tbody") None table = Some tbody →
  parse_table html = Ok (first_seen ∅ (row_record <$> table_rows tbody)).
Proof.
  unfold selected_table, parse_table, table_rows.
  destruct (BeautifulSoup html) as [soup|e]; [|done].
  cbn [mbind result_bind]. intros -> ->.
  destruct (for_rows_first_seen (find_all (lit "tr") None tbody) [] ∅)
    as [seen' ->].
  done.
Qed.

Lemma matches_tag_class n c d :
  matches_tag n (Some c) d = true → matches_tag n None d = true.
Proof.
  destruct d as [| |m cs ds]; simpl; [done..|].
  intros [-> _]%andb_true_iff. done.
Qed.

Lemma find_none_class n c e :
  find n None e = None → find n (Some c) e = None.
Proof.
  unfold find, find_all. intros Hnone%head_None. apply head_None.
  induction (descendants e) as [|d l IH]; [done|].
  rewrite filter_cons in Hnone |- *.
  destruct (decide (matches_tag n None d = true)) as [Hd|Hd]; [done|].
  destruct (decide (matches_tag n (Some c) d = true)) as [Hc|Hc].
  - by apply matches_tag_class in Hc.
  - by apply IH.
Qed.

(** C4: rows are deduplicated on the key (mobile, cnic, name) and the
    first occurrence wins.  When two rows of the table body share
    their key, the result holds exactly one record with that key: the
    record of the first row of the body that has it, which stands at
    or before the earlier of the two.  A later row with another
    address leaves no record, and a body of two identical rows yields
    one record. *)
Theorem parse_table_first_wins
    (html : str) (table tbody : PageElement) (i j : nat) (ti tj : PageElement) :
  selected_table html = Some table →
  find (lit "tbody") None table = Some tbody →
  i < j →
  table_rows tbody !! i = Some ti →
  table_rows tbody !! j = Some tj →
  row_key (row_record ti) = row_key (row_record tj) →
  ∃ results f tf,
    parse_table html = Ok results
    ∧ NoDup (row_key <$> results)
    ∧ f ≤ i
    ∧ table_rows tbody !! f = Some tf
    ∧ row_key (row_record tf) = row_key (row_record ti)
    ∧ (∀ k tk, k < f → table_rows tbody !! k = Some tk →
               row_key (row_record tk) ≠ row_key (row_record ti))
    ∧ row_record tf ∈ results
    ∧ (∀ r, r ∈ results → row_key r = row_key (row_record ti) →
            r = row_record tf)
    ∧ (address (row_record tj) ≠ address (row_record tf) →
       row_record tj ∉ results)
    ∧ (table_rows tbody = [ti; tj] → results = [row_record ti]).
Proof.
  intros Htable Htbody Hij Hi Hj Hkey.
  pose proof (parse_table_rows _ _ _ Htable Htbody) as Hparse.
  set (rows := row_record <$> table_rows tbody) in *.
  assert (Hri : rows !! i = Some (row_record ti)).
  { unfold rows. by rewrite list_lookup_fmap, Hi. }
  destruct (first_seen_first ∅ rows i (row_record ti) Hri)
    as (f & rf & Hf & Hrf & Hkf & Hmin & Hin & Huniq).
  { apply not_elem_of_empty. }
  unfold rows in Hrf. rewrite list_lookup_fmap in Hrf.
  destruct (table_rows tbody !! f) as [tf|] eqn:Htf; [|done].
  simpl in Hrf. injection Hrf as <-.
  exists (first_seen ∅ rows), f, tf.
  split; [done|]. split; [apply first_seen_NoDup|].
  split; [done|]. split; [done|]. split; [done|].
  split.
  { intros k tk Hk Htk. apply (Hmin k (row_record tk) Hk).
    unfold rows. by rewrite list_lookup_fmap, Htk. }
  split; [done|]. split; [done|]. split.
  - intros Haddr Hinj. apply Haddr. f_equal.
    apply Huniq; [done|]. by symmetry.
  - intros Hrows. unfold rows. rewrite Hrows. simpl.
    rewrite bool_decide_eq_false_2 by apply not_elem_of_empty.
    rewrite bool_decide_eq_true_2; [done|].
    apply elem_of_union. right. by apply elem_of_singleton.
Qed.

(** Induction on a document tree. *)
Lemma PageElement_nested_ind (P : PageElement → Prop) :
  (∀ s, P (NavigableString s)) →
  (∀ s, P (Comment s)) →
  (∀ n cs contents, Forall P contents → P (Tag n cs contents)) →
  ∀ e, P e.
Proof.
  intros Hs Hc Ht. fix IH 1. intros [s|s|n cs contents].
  - apply Hs.
  - apply Hc.
  - apply Ht. revert contents. fix IHl 1. intros [|c contents].
    + constructor.
    + constructor; [apply IH|apply IHl].
Qed.

Lemma strings_descendants e : strings e = omap navigable (e :: descendants e).
Proof.
  induction e as [s|s|n cs contents IH] using PageElement_nested_ind;
    [done..|].
  change (flat_map strings contents
          = omap navigable (flat_map (λ c, c :: descendants c) contents)).
  induction IH as [|c contents Hc _ IHl]; [done|].
  change (strings c ++ flat_map strings contents
          = omap navigable ((c :: descendants c)
                            ++ flat_map (λ c, c :: descendants c) contents)).
  by rewrite omap_app, <- IHl, <- Hc.
Qed.

(** On a tag [get_text(strip=True)] gives the text of the cell. *)
Lemma get_text_strip_tag n cs contents :
  get_text_strip (Tag n cs contents) = cell_text (Tag n cs contents).
Proof.
  unfold get_text_strip, cell_text. f_equal. f_equal.
  rewrite strings_descendants. cbn [omap list_omap navigable].
  induction (descendants (Tag n cs contents)) as [|d l IH]; [done|].
  cbn [omap list_omap]. destruct d as [t|t|m ds kids]; simpl; by rewrite ?IH.
Qed.

Lemma find_all_tags name class_ e d :
  d ∈ find_all name class_ e → ∃ n cs contents, d = Tag n cs contents.
Proof.
  unfold find_all. intros [Hm _]%list_elem_of_filter.
  destruct d as [t|t|n cs contents]; [done..|]. eauto.
Qed.

Lemma row_cols_cell_text tr :
  row_cols tr = cell_text <$> find_all (lit "td") None tr.
Proof.
  unfold row_cols. apply Forall_fmap_ext, Forall_forall.
  intros d (n & cs & contents & ->)%find_all_tags.
  apply get_text_strip_tag.
Qed.

(** C5, amended: when the rows of the table body have pairwise distinct
    keys, the result is the list of their records, one per row and in
    the order of the rows.  A field is the text of the row's cell as
    [get_text(strip=True)] gives it: every string inside the cell
    stripped of the white space around it, the empty ones dropped and
    the rest joined with nothing between them; for a cell that holds
    one string this is the value of the cell, the string stripped. *)
Theorem parse_table_distinct (html : str) (table tbody : PageElement) :
  selected_table html = Some table →
  find (lit "tbody") None table = Some tbody →
  NoDup (row_key ∘ row_record <$> table_rows tbody) →
  parse_table html
  = Ok ((λ tr, let cells := cell_text <$> find_all (lit "td") None tr in
               {| mobile := cells !! 0; name := cells !! 1;
                  cnic := cells !! 2; address := cells !! 3 |})
          <$> table_rows tbody)
  ∧ (∀ n cs s, cell_text (Tag n cs [NavigableString s]) = strip s
               ∧ cell_value (Tag n cs [NavigableString s]) = strip s).
Proof.
  intros Htable Htbody Hnd.
  rewrite (parse_table_rows _ _ _ Htable Htbody). split.
  - f_equal. rewrite first_seen_distinct.
    + apply list_fmap_ext. intros i tr _.
      unfold row_record. by rewrite row_cols_cell_text.
    + by rewrite <- list_fmap_compose.
    + intros r _. apply not_elem_of_empty.
  - intros n cs s. unfold cell_text, cell_value. simpl.
    rewrite !app_nil_r. split; [|done].
    rewrite filter_cons. case_decide as Hs; simpl.
    + by rewrite app_nil_r.
    + destruct (strip s); [done|]. by destruct Hs.
Qed.

(** C6, amended: for every text that the HTML parser reads, parsing
    returns a list.  The list is empty when the document has no table,
    and when the selected table has a body every row that is the first
    with its key has its record in the list: the fields are the texts
    of the row's cells in column order, with [None] for each column
    the row has no cell for. *)
Theorem parse_table_accepted (html : str) (contents : list PageElement) :
  html_parser html = Ok contents →
  ∃ results,
    parse_table html = Ok results
    ∧ (find (lit "table") None (Tag (lit "[document]") [] contents) = None →
       results = [])
    ∧ (∀ table tbody i tr,
         selected_table html = Some table →
         find (lit "tbody") None table = Some tbody →
         table_rows tbody !! i = Some tr →
         (∀ j tj, j < i → table_rows tbody !! j = Some tj →
                  row_key (row_record tj) ≠ row_key (row_record tr)) →
         ∃ r, r ∈ results
              ∧ mobile r = row_cols tr !! 0
              ∧ name r = row_cols tr !! 1
              ∧ cnic r = row_cols tr !! 2
              ∧ address r = row_cols tr !! 3
              ∧ (length (row_cols tr) ≤ 0 → mobile r = None)
              ∧ (length (row_cols tr) ≤ 1 → name r = None)
              ∧ (length (row_cols tr) ≤ 2 → cnic r = None)
              ∧ (length (row_cols tr) ≤ 3 → address r = None)).
Proof.
  intros Hparsed.
  assert (Hsoup : BeautifulSoup html = Ok (Tag (lit "[document]") [] contents)).
  { unfold BeautifulSoup. by rewrite Hparsed. }
  destruct (selected_table html) as [table|] eqn:Htable.
  - destruct (find (lit "tbody") None table) as [tbody|] eqn:Htbody.
    + exists (first_seen ∅ (row_record <$> table_rows tbody)).
      split; [by apply (parse_table_rows _ table tbody)|]. split.
      * intros Hnone. unfold selected_table in Htable. rewrite Hsoup in Htable.
        by rewrite (find_none_class _ (lit "api-response") _ Hnone), Hnone
          in Htable.
      * intros table' tbody' i tr [= <-] Htbody' Hi Hfirst.
        rewrite Htbody in Htbody'. injection Htbody' as <-.
        destruct (first_seen_first ∅ (row_record <$> table_rows tbody) i
                    (row_record tr))
          as (f & rf & Hf & Hrf & Hkey & _ & Hin & _).
        { by rewrite list_lookup_fmap, Hi. }
        { apply not_elem_of_empty. }
        rewrite list_lookup_fmap in Hrf.
        destruct (table_rows tbody !! f) as [tf|] eqn:Htf; [|done].
        injection Hrf as <-.
        assert (f = i) as ->.
        { destruct (decide (f = i)) as [|Hne]; [done|].
          destruct (Hfirst f tf); [lia|done|done]. }
        rewrite Hi in Htf. injection Htf as <-.
        exists (row_record tr). split; [done|].
        unfold row_record. simpl.
        repeat split; try done; intros Hlen; apply lookup_ge_None; lia.
    + exists []. split; [|split; [done|]].
      * unfold selected_table in Htable. unfold parse_table.
        rewrite Hsoup in Htable |- *. cbn [mbind result_bind].
        by rewrite Htable, Htbody.
      * intros table' tbody' i tr [= <-] Htbody'. by rewrite Htbody in Htbody'.
  - exists []. split; [|split; [done|]].
    + unfold selected_table in Htable. unfold parse_table.
      rewrite Hsoup in Htable |- *. cbn [mbind result_bind].
      by rewrite Htable.
    + intros table' tbody' i tr Hsel. discriminate Hsel.
Qed.

(** C10: when the selected table holds no [tbody] element the result
    is the empty list, whatever rows the table has. *)
Theorem parse_table_no_tbody (html : str) (table : PageElement) :
  selected_table html = Some table →
  find (lit "tbody") None table = None →
  parse_table html = Ok [].
Proof.
  unfold selected_table, parse_table.
  destruct (BeautifulSoup html) as [soup|e]; [|done].
  cbn [mbind result_bind]. by intros -> ->.
Qed.
End ParserClaims.

(** *** The parser on small documents *)

(** Two rows with one key and two addresses: the record of the first
    row is in the result and that of the second is not. *)
Lemma parse_table_first_wins_witness :
  ∃ results,
    parse_table (U := ascii_tables) (HP := fixed_document same_key_document) []
    = Ok results
    ∧ row_record (U := ascii_tables) (person_row "Ali" "Lahore") ∈ results
    ∧ row_record (U := ascii_tables) (person_row "Ali" "Karachi") ∉ results.
Proof.
  destruct (parse_table_first_wins (U := ascii_tables)
              (HP := fixed_document same_key_document) []
              (results_table [body [person_row "Ali" "Lahore";
                                     person_row "Ali" "Karachi"]])
              (body [person_row "Ali" "Lahore"; person_row "Ali" "Karachi"])
              0 1 (person_row "Ali" "Lahore") (person_row "Ali" "Karachi"))
    as (results & f & tf & Hparse & _ & Hf & Htf & _ & _ & Hin & _ & Hout & _).
  - reflexivity.
  - reflexivity.
  - lia.
  - reflexivity.
  - reflexivity.
  - reflexivity.
  - assert (f = 0) as -> by lia.
    injection Htf as <-.
    exists results. split; [exact Hparse|]. split; [exact Hin|].
    apply Hout. vm_compute. discriminate.
Defined.

(** The fourth scenario of the specification: two identical rows. *)
Example parse_table_identical_rows :
  parse_table (U := ascii_tables)
    (HP := fixed_document
       [results_table [body [person_row "Ali" "Lahore"; person_row "Ali" "Lahore"]]])
    []
  = Ok [row_record (U := ascii_tables) (person_row "Ali" "Lahore")].
Proof. by vm_compute. Qed.

(** Two rows with different keys come back as two records, in order. *)
Lemma parse_table_distinct_witness :
  parse_table (U := ascii_tables) (HP := fixed_document distinct_document) []
  = Ok [ {| mobile := Some (lit "03001234567"); name := Some (lit "Ali");
            cnic := Some (lit "1234567890123"); address := Some (lit "Lahore") |};
         {| mobile := Some (lit "03001234567"); name := Some (lit "Sara");
            cnic := Some (lit "1234567890123"); address := Some (lit "Lahore") |} ].
Proof.
  refine (proj1 (parse_table_distinct (U := ascii_tables)
    (HP := fixed_document distinct_document) []
    (results_table [body [person_row "Ali" "Lahore"; person_row "Sara" "Lahore"]])
    (body [person_row "Ali" "Lahore"; person_row "Sara" "Lahore"])
    _ _ _)).
  - reflexivity.
  - reflexivity.
  - apply (bool_decide_unpack _). by vm_compute.
Defined.

(** The claim as it is stated fails on a cell with markup inside: the
    one row has a key of its own, the value of its name cell is
    [Muhammad Ali], and the record has [MuhammadAli]. *)
Lemma parse_table_markup_cell :
  selected_table (HP := fixed_document markup_document) []
  = Some (results_table [body [markup_row]])
  ∧ table_rows (body [markup_row]) = [markup_row]
  ∧ NoDup (row_key ∘ row_record (U := ascii_tables)
           <$> table_rows (body [markup_row]))
  ∧ name (stated_record (U := ascii_tables) markup_row)
    = Some (lit "Muhammad Ali")
  ∧ parse_table (U := ascii_tables) (HP := fixed_document markup_document) []
    = Ok [ {| mobile := Some (lit "03001234567");
              name := Some (lit "MuhammadAli");
              cnic := Some (lit "1234567890123");
              address := Some (lit "Lahore") |} ]
  ∧ parse_table (U := ascii_tables) (HP := fixed_document markup_document) []
    ≠ Ok (stated_record (U := ascii_tables) <$> table_rows (body [markup_row])).
Proof.
  split; [reflexivity|]. split; [reflexivity|].
  split; [apply (bool_decide_unpack _); by vm_compute|].
  split; [by vm_compute|]. split; [by vm_compute|].
  intros Heq. vm_compute in Heq. discriminate Heq.
Qed.

(** Rows placed directly under the table are found in the document but
    not extracted. *)
Lemma parse_table_no_tbody_witness :
  parse_table (U := ascii_tables) (HP := fixed_document [bare_rows_table]) []
  = Ok []
  ∧ length (find_all (lit "tr") None bare_rows_table) = 2.
Proof.
  split; [|reflexivity].
  apply (parse_table_no_tbody (U := ascii_tables)
           (HP := fixed_document [bare_rows_table]) [] bare_rows_table);
    reflexivity.
Defined.

(** A row with two cells gives a record whose last two fields are
    [None]. *)
Lemma parse_table_accepted_witness :
  ∃ results r,
    parse_table (U := ascii_tables) (HP := rejecting_document short_row_document) []
    = Ok results
    ∧ r ∈ results
    ∧ mobile r = Some (lit "03001234567") ∧ name r = Some (lit "Ali")
    ∧ cnic r = None ∧ address r = None.
Proof.
  destruct (parse_table_accepted (U := ascii_tables)
              (HP := rejecting_document short_row_document) []
              short_row_document)
    as (results & Hparse & _ & Hrows).
  - reflexivity.
  - destruct (Hrows (results_table [body [short_row]]) (body [short_row])
                0 short_row)
      as (r & Hin & Hmobile & Hname & _ & _ & _ & _ & Hcnic & Haddress).
    + reflexivity.
    + reflexivity.
    + reflexivity.
    + intros j tj Hj. lia.
    + exists results, r. split; [exact Hparse|]. split; [exact Hin|].
      split; [exact Hmobile|]. split; [exact Hname|].
      split; [apply Hcnic|apply Haddress]; vm_compute; lia.
Defined.

(** The claim as it is stated fails on a text that the HTML parser
    rejects: the exception leaves [parse_table], which returns no
    list. *)
Lemma parse_table_rejected_markup :
  parse_table (U := ascii_tables) (HP := rejecting_document short_row_document)
    unknown_marked_section
  = Raise (ParserRejectedMarkup rejected_markup_message)
  ∧ ¬ ∃ results,
        parse_table (U := ascii_tables)
          (HP := rejecting_document short_row_document) unknown_marked_section
        = Ok results.
Proof.
  split; [reflexivity|]. intros [results Hparse]. discriminate Hparse.
Qed.

(** A document without a table, and a row with two cells. *)
Example parse_table_short_row :
  parse_table (U := ascii_tables)
    (HP := fixed_document [Tag (lit "p") [] [NavigableString (lit "no records")]]) []
  = Ok []
  ∧ parse_table (U := ascii_tables) (HP := fixed_document short_row_document) []
    = Ok [ {| mobile := Some (lit "03001234567"); name := Some (lit "Ali");
              cnic := None; address := None |} ].
Proof. by vm_compute. Qed.

(** ** Rate limiter and fetcher *)

Section LimiterClaims.
Context `{CFG : Config} `{RT : Runtime}.

(** The time shown by the clock of a world. *)
Variable wall : World → Q.

(** The clock does not run backwards: the value read by [time.time()]
    lies between the time before and the time after the call. *)
Hypothesis time_time_reads : ∀ w,
  (wall w <= (time_time w).1 ∧ (time_time w).1 <= wall (time_time w).2)%Q.

(** [time.sleep(d)] returns after at least [d] seconds. *)
Hypothesis time_sleep_waits : ∀ d w, (wall w + d <= wall (time_sleep d w))%Q.

Lemma rate_limit_wait_spacing (st : State) :
  let now := (time_time (world st)).1 in
  let elapsed := fround (now - LAST_CALL_ts st) in
  (elapsed <= now - LAST_CALL_ts st)%Q →
  (min_interval - elapsed <= fround (min_interval - elapsed))%Q →
  (LAST_CALL_ts st + min_interval <= LAST_CALL_ts (rate_limit_wait st)
   ∧ LAST_CALL_ts (rate_limit_wait st) <= wall (world (rate_limit_wait st)))%Q.
Proof using time_time_reads time_sleep_waits.
  unfold rate_limit_wait, call_time.
  pose proof (time_time_reads (world st)) as [Ha Hb].
  destruct (time_time (world st)) as [t0 w1]. simpl in *.
  intros Hup Hdown.
  destruct (Qlt_le_dec (fround (t0 - LAST_CALL_ts st)) min_interval)
    as [Hlt|Hge].
  - unfold call_sleep. simpl.
    pose proof (time_sleep_waits
                  (fround (min_interval - fround (t0 - LAST_CALL_ts st))) w1)
      as Hs.
    pose proof (time_time_reads
                  (time_sleep
                     (fround (min_interval - fround (t0 - LAST_CALL_ts st))) w1))
      as [Hc Hd].
    destruct (time_time (time_sleep _ w1)) as [t1 w3]. simpl in *.
    split; lra.
  - simpl. pose proof (time_time_reads w1) as [Hc Hd].
    destruct (time_time w1) as [t1 w3]. simpl in *.
    split; lra.
Qed.

(** What a call does: it reads the clock, sleeps for what is missing
    of [MIN_INTERVAL] since the recorded timestamp when something is
    missing, reads the clock again and records that reading. *)
Lemma rate_limit_wait_trace (st : State) :
  let now := (time_time (world st)).1 in
  let elapsed := fround (now - LAST_CALL_ts st) in
  ∃ t, LAST_CALL_ts (rate_limit_wait st) = t
       ∧ trace (rate_limit_wait st)
         = trace st
           ++ EvTime now
              :: (if Qlt_le_dec elapsed min_interval
                  then [EvSleep (fround (min_interval - elapsed))] else [])
           ++ [EvTime t].
Proof.
  unfold rate_limit_wait, call_time.
  destruct (time_time (world st)) as [t0 w1]. simpl.
  destruct (Qlt_le_dec (fround (t0 - LAST_CALL_ts st)) min_interval)
    as [Hlt|Hge]; simpl.
  - destruct (time_time (time_sleep _ w1)) as [t1 w3]. simpl.
    exists t1. split; [done|]. by rewrite <- !app_assoc.
  - destruct (time_time w1) as [t1 w3]. simpl.
    exists t1. split; [done|]. by rewrite <- !app_assoc.
Qed.


End LimiterClaims.

Section FetcherClaims.
Context `{CFG : Config} `{RT : Runtime}.

(** C9: with [ALLOW_UPSTREAM] off the fetch raises at once: the state
    comes back as it was, so the limiter's timestamp is untouched and
    no call to the clock or the network was made. *)
Theorem fetch_upstream_disabled (query_value : str) (st : State) :
  ALLOW_UPSTREAM = false →
  fetch_upstream query_value st
  = (Raise (PermissionError (lit "Upstream fetching disabled.")), st)
  ∧ trace (fetch_upstream query_value st).2 = trace st
  ∧ LAST_CALL_ts (fetch_upstream query_value st).2 = LAST_CALL_ts st.
Proof.
  intros Hoff. unfold fetch_upstream. rewrite Hoff. simpl. done.
Qed.
End FetcherClaims.


(** The claim as it is stated fails on floats.  The float subtraction
    of the floats nearest to 1.2 and 0.2 gives the float 1. *)
Example binary64_subtraction_rounds_up :
  SFsub 53 1024 binary64_1_2 binary64_0_2
  = S754_finite false 4503599627370496 (-52)
  ∧ (binary64_value binary64_1_2 == double_1_2)%Q
  ∧ (binary64_value binary64_0_2 == double_0_2)%Q
  ∧ (binary64_value (SFsub 53 1024 binary64_1_2 binary64_0_2)
     == tie_round (double_1_2 - double_0_2))%Q
  ∧ (double_1_2 - double_0_2 < 1)%Q.
Proof. by vm_compute. Qed.


(** A first call at time 100 and a second one a quarter of a second
    later: the first does not sleep and the second sleeps for the three
    quarters of a second that are missing. *)
Example rate_limit_wait_run :
  let st1 := rate_limit_wait (CFG := example_config true) (clock_state 100) in
  let st2 := rate_limit_wait (CFG := example_config true)
               (Build_State clock_runtime (LAST_CALL_ts st1) (401 # 4)%Q []) in
  trace st1 = [EvTime 100; EvTime 100]
  ∧ (LAST_CALL_ts st1 == 100)%Q
  ∧ (LAST_CALL_ts st2 == 101)%Q
  ∧ length (trace st2) = 3.
Proof. by vm_compute. Qed.

(** With the flag off nothing happens to the state. *)
Lemma fetch_upstream_disabled_witness :
  fetch_upstream (CFG := example_config false) (lit "923001234567") (clock_state 100)
  = (Raise (PermissionError (lit "Upstream fetching disabled.")), clock_state 100).
Proof.
  apply (fetch_upstream_disabled (CFG := example_config false)
           (RT := clock_runtime) (lit "923001234567") (clock_state 100)).
  reflexivity.
Defined.

(** With the flag on the limiter runs and one request is posted. *)
Example fetch_upstream_enabled :
  (fetch_upstream (CFG := example_config true) (lit "923001234567")
     (clock_state 100)).1 = Ok []
  ∧ length (trace (fetch_upstream (CFG := example_config true)
                     (lit "923001234567") (clock_state 100)).2) = 3.
Proof. by vm_compute. Qed.

(** ** The lookup route *)
Section RoutesClaims.
Context `{U : UnicodeDB} `{HP : HtmlParser} `{CFG : Config} `{RT : Runtime}.

Lemma args_get_first (r : Request) (k v : str) :
  args_get r k = Some v ↔ first_arg r k v.
Proof.
  unfold args_get, first_arg. destruct r as [l]. simpl.
  induction l as [|[k' v'] l IH].
  - split; [done|]. intros (before & after & Hl & _). by destruct before.
  - rewrite filter_cons. simpl. case_decide as Hk.
    + subst k'. simpl. split.
      * intros [= ->]. exists [], l. split; [done|]. by intros p ?%elem_of_nil.
      * intros ([|p before] & after & Hl & Hbefore).
        -- by injection Hl as -> _.
        -- injection Hl as <- _. destruct (Hbefore (k, v')); [by left|done].
    + rewrite IH. split.
      * intros (before & after & -> & Hbefore).
        exists ((k', v') :: before), after. split; [done|].
        intros p [->|Hp]%elem_of_cons; [done|by apply Hbefore].
      * intros ([|p before] & after & Hl & Hbefore).
        -- injection Hl as -> _. done.
        -- injection Hl as <- ->. exists before, after. split; [done|].
           intros p Hp. apply Hbefore. by right.
Qed.

Lemma args_get_absent (r : Request) (k : str) :
  args_get r k = None ↔ ∀ p, p ∈ args r → p.1 ≠ k.
Proof.
  unfold args_get. destruct r as [l]. simpl.
  induction l as [|[k' v'] l IH].
  - split; [|done]. by intros _ p ?%elem_of_nil.
  - rewrite filter_cons. simpl. case_decide as Hk.
    + simpl. split; [done|]. intros Hl. destruct (Hl (k', v')); [by left|done].
    + rewrite IH. split.
      * intros Hl p [->|Hp]%elem_of_cons; [done|by apply Hl].
      * intros Hl p Hp. apply Hl. by right.
Qed.

Lemma args_get_falsy (r : Request) (k : str) :
  truthy (args_get r k) = false ↔ no_arg r k.
Proof.
  unfold no_arg. rewrite <- args_get_first, <- args_get_absent.
  destruct (args_get r k) as [[|c v]|]; simpl.
  - split; [by right|done].
  - split; [done|]. by intros [|].
  - split; [by left|done].
Qed.

(** The value that the handler reads is the one the request carries. *)
Lemma carries_query_iff (r : Request) (v : str) :
  carries_query r v ↔ request_query r = Some v ∧ v ≠ [].
Proof.
  unfold carries_query, request_query, py_or.
  rewrite <- !args_get_first, <- !args_get_falsy.
  destruct (args_get r (lit "query")) as [[|c1 v1]|];
    destruct (args_get r (lit "q")) as [[|c2 v2]|];
    destruct (args_get r (lit "value")) as [[|c3 v3]|]; simpl;
    (split;
     [ intros (Hv & [Hq|[[Hn Hq]|(Hn1 & Hn2 & Hq)]]); by simplify_eq
     | intros [Hq Hv];
       first [ by simplify_eq
             | simplify_eq; split; [done|]; by eauto 6 ] ]).
Qed.

Lemma api_lookup_get_missing (r : Request) (st : State) :
  (api_lookup_get r st).1.2 = 400%Z ↔ ∀ v, ¬ carries_query r v.
Proof.
  unfold api_lookup_get. split.
  - intros Hstatus v [Hq Hv]%carries_query_iff. rewrite Hq in Hstatus.
    destruct v as [|c v]; [done|].
    destruct (classify_query (c :: v)) as [[qtype normalized]|e]; [|done].
    destruct (fetch_upstream normalized st) as [[html|e] st']; [|done].
    by destruct (parse_table html).
  - intros Hnone. destruct (request_query r) as [[|c v]|] eqn:Hq; [done| |done].
    destruct (Hnone (c :: v)). by apply carries_query_iff.
Qed.

End RoutesClaims.


(** The third scenario of the specification: the query [abc] carries a
    value, so the answer is 500 with the classifier's message; a
    request without a value, or with an empty one, is answered 400; a
    good query is answered 200. *)
Example api_lookup_get_scenarios :
  (api_lookup_get (U := ascii_tables) (HP := fixed_document distinct_document)
     (CFG := example_config true)
     {| args := [(lit "query", lit "abc")] |} (clock_state 100)).1
  = (respond_json
       (JDict [ (lit "error", JStr (lit "Fetch failed"));
                (lit "detail", JStr invalid_query_message);
                (lit "developer", JStr (lit "Savitar")) ]) false, 500%Z)
  ∧ (api_lookup_get (U := ascii_tables) (HP := fixed_document distinct_document)
       (CFG := example_config true)
       {| args := [(lit "pretty", lit "1")] |} (clock_state 100)).1.2 = 400%Z
  ∧ (api_lookup_get (U := ascii_tables) (HP := fixed_document distinct_document)
       (CFG := example_config true)
       {| args := [(lit "query", [])] |} (clock_state 100)).1.2 = 400%Z
  ∧ (api_lookup_get (U := ascii_tables) (HP := fixed_document distinct_document)
       (CFG := example_config false)
       {| args := [(lit "q", lit "03001234567")] |} (clock_state 100)).1
    = (respond_json
         (JDict [ (lit "error", JStr (lit "Fetch failed"));
                  (lit "detail", JStr (lit "Upstream fetching disabled."));
                  (lit "developer", JStr (lit "Savitar")) ]) false, 500%Z)
  ∧ (api_lookup_get (U := ascii_tables) (HP := fixed_document distinct_document)
       (CFG := example_config true)
       {| args := [(lit "value", lit "03001234567")] |} (clock_state 100)).1.2
    = 200%Z.
Proof. by vm_compute. Qed.

(** * Further properties *)

(** ** Stripping and padding *)
Section PaddingFacts.
Variable p : char → bool.

Lemma lstrip_with_app s t :
  lstrip_with p (s ++ t)
  = match lstrip_with p s with
    | [] => lstrip_with p t
    | r => r ++ t
    end.
Proof.
  induction s as [|c s IH]; simpl; [done|].
  destruct (p c); [exact IH|done].
Qed.

Lemma lstrip_with_all s : Forall (λ c, p c = true) s → lstrip_with p s = [].
Proof. induction 1 as [|c s Hc _ IH]; simpl; [done|]. by rewrite Hc. Qed.

Lemma rstrip_with_all s : Forall (λ c, p c = true) s → rstrip_with p s = [].
Proof. induction 1 as [|c s Hc _ IH]; simpl; [done|]. by rewrite IH, Hc. Qed.

Lemma rstrip_with_app s t :
  Forall (λ c, p c = true) t → rstrip_with p (s ++ t) = rstrip_with p s.
Proof.
  intros Ht. induction s as [|c s IH]; simpl.
  - by apply rstrip_with_all.
  - by rewrite IH.
Qed.

(** White space around a string does not change what is left of it. *)
Lemma strip_with_pad pre s post :
  Forall (λ c, p c = true) pre →
  Forall (λ c, p c = true) post →
  rstrip_with p (lstrip_with p (pre ++ s ++ post))
  = rstrip_with p (lstrip_with p s).
Proof.
  intros Hpre Hpost.
  rewrite lstrip_with_app, (lstrip_with_all pre Hpre), lstrip_with_app.
  destruct (lstrip_with p s) as [|c r] eqn:Hs.
  - by rewrite (lstrip_with_all post Hpost).
  - by apply rstrip_with_app.
Qed.
End PaddingFacts.

(** ** Query classifier *)
Section ClassifierMore.
Context `{U : UnicodeDB}.

(** The decision of the classifier, read on the trimmed value. *)
Lemma classify_query_cases value :
  classify_query value =
  if is_cnic (strip value) then Ok (lit "cnic", strip value)
  else if is_mobile (strip value) then Ok (lit "mobile", strip value)
  else if is_local_mobile (strip value)
       then Ok (lit "mobile", lit "92" ++ drop 1 (strip value))
       else Raise (ValueError invalid_query_message).
Proof.
  unfold classify_query. destruct (is_cnic (strip value)); [done|].
  rewrite (is_mobile_normalize _ (strip_idem value)).
  unfold normalize_mobile. rewrite strip_idem.
  destruct (is_mobile (strip value)); [done|].
  by destruct (is_local_mobile (strip value)).
Qed.

Lemma cnic_format_decimal v :
  cnic_format v → Forall (λ c, isdecimal c = true) v.
Proof. by intros [_ ?]. Qed.

Lemma mobile_format_decimal v :
  mobile_format v → Forall (λ c, isdecimal c = true) v.
Proof.
  intros (ds & -> & _ & Hds).
  repeat (apply Forall_cons; split;
          [apply isdecimal_ascii; vm_compute; split; discriminate|]).
  done.
Qed.

(** The three formats exclude one another. *)
Lemma cnic_not_mobile v : cnic_format v → is_mobile v = false.
Proof.
  intros [Hlen _]. apply not_true_is_false.
  intros (ds & -> & Hl & _)%is_mobile_spec. simpl in Hlen. lia.
Qed.

Lemma cnic_not_local v : cnic_format v → is_local_mobile v = false.
Proof.
  intros [Hlen _]. apply not_true_is_false.
  intros (ds & -> & Hl & _)%is_local_mobile_spec. simpl in Hlen. lia.
Qed.

Lemma mobile_not_cnic v : mobile_format v → is_cnic v = false.
Proof.
  intros (ds & -> & Hl & _). apply not_true_is_false.
  intros [Hlen _]%is_cnic_spec. simpl in Hlen. lia.
Qed.

(** X1: an input whose trimmed value is [92] followed by ten digits is
    classified as mobile and the trimmed value is returned as it is. *)
Theorem classify_query_international (value ds : str) :
  strip value = lit "92" ++ ds →
  digits 10 ds →
  classify_query value = Ok (lit "mobile", strip value).
Proof.
  intros Hv Hds.
  assert (Hm : mobile_format (strip value)) by (exists ds; done).
  rewrite classify_query_cases, (mobile_not_cnic _ Hm).
  by rewrite (proj2 (is_mobile_spec _) Hm).
Qed.

Lemma classify_query_format value kind normalized :
  classify_query value = Ok (kind, normalized) →
  (kind = lit "cnic" ∧ cnic_format normalized)
  ∨ (kind = lit "mobile" ∧ mobile_format normalized).
Proof.
  rewrite classify_query_cases.
  destruct (is_cnic (strip value)) eqn:Hc.
  { intros [= <- <-]. left. split; [done|]. by apply is_cnic_spec. }
  destruct (is_mobile (strip value)) eqn:Hm.
  { intros [= <- <-]. right. split; [done|]. by apply is_mobile_spec. }
  destruct (is_local_mobile (strip value)) eqn:Hl; [|done].
  intros [= <- <-]. right. split; [done|].
  by apply local_rewritten, is_local_mobile_spec.
Qed.

(** X2: whatever the classifier returns has the format of its kind: a
    value tagged [cnic] is thirteen digits and a value tagged [mobile]
    is [92] followed by ten digits; there is no other tag. *)
Theorem classify_query_well_formed (value kind normalized : str) :
  classify_query value = Ok (kind, normalized) →
  (kind = lit "cnic" ∧ cnic_format normalized)
  ∨ (kind = lit "mobile" ∧ mobile_format normalized).
Proof.
  rewrite classify_query_cases.
  destruct (is_cnic (strip value)) eqn:Hc.
  { intros [= <- <-]. left. split; [done|]. by apply is_cnic_spec. }
  destruct (is_mobile (strip value)) eqn:Hm.
  { intros [= <- <-]. right. split; [done|]. by apply is_mobile_spec. }
  destruct (is_local_mobile (strip value)) eqn:Hl; [|done].
  intros [= <- <-]. right. split; [done|].
  by apply local_rewritten, is_local_mobile_spec.
Qed.

(** X3: the normalized value is a fixed point: classifying it again
    gives the same kind and the same value. *)
Theorem classify_query_stable (value kind normalized : str) :
  classify_query value = Ok (kind, normalized) →
  classify_query normalized = Ok (kind, normalized).
Proof.
  intros Hfmt%classify_query_format.
  rewrite classify_query_cases.
  destruct Hfmt as [[-> Hc]|[-> Hm]].
  - rewrite (strip_decimal _ (cnic_format_decimal _ Hc)).
    by rewrite (proj2 (is_cnic_spec _) Hc).
  - rewrite (strip_decimal _ (mobile_format_decimal _ Hm)).
    by rewrite (mobile_not_cnic _ Hm), (proj2 (is_mobile_spec _) Hm).
Qed.

(** X4: white space before and after a query does not change its
    classification. *)
Theorem classify_query_padding (pre value post : str) :
  Forall (λ c, isspace c = true) pre →
  Forall (λ c, isspace c = true) post →
  classify_query (pre ++ value ++ post) = classify_query value.
Proof.
  intros Hpre Hpost. rewrite !classify_query_cases.
  unfold strip. by rewrite (strip_with_pad isspace pre value post Hpre Hpost).
Qed.

(** X5: [normalize_mobile] is idempotent. *)
Theorem normalize_mobile_idempotent (value : str) :
  normalize_mobile (normalize_mobile value) = normalize_mobile value.
Proof.
  unfold normalize_mobile at 2 3.
  destruct (is_mobile (strip value)) eqn:Hm.
  - unfold normalize_mobile. by rewrite strip_idem, Hm.
  - destruct (is_local_mobile (strip value)) eqn:Hl.
    + pose proof (local_rewritten _ (proj1 (is_local_mobile_spec _) Hl)) as Hw.
      unfold normalize_mobile.
      rewrite (strip_decimal _ (mobile_format_decimal _ Hw)).
      by rewrite (proj2 (is_mobile_spec _) Hw).
    + unfold normalize_mobile. by rewrite strip_idem, Hm, Hl.
Qed.

(** X6: a value matches at most one of the three patterns, so the
    order in which the classifier tries them does not matter. *)
Theorem patterns_exclusive (v : str) :
  (is_cnic v = true → is_mobile v = false ∧ is_local_mobile v = false)
  ∧ (is_mobile v = true → is_cnic v = false ∧ is_local_mobile v = false)
  ∧ (is_local_mobile v = true → is_cnic v = false ∧ is_mobile v = false).
Proof.
  split; [|split].
  - intros Hc%is_cnic_spec. split; [by apply cnic_not_mobile|by apply cnic_not_local].
  - intros Hm. split; [by apply mobile_not_cnic, is_mobile_spec|].
    apply not_true_is_false. intros Hl%is_local_mobile_spec.
    by rewrite (local_not_mobile _ Hl) in Hm.
  - intros Hl. pose proof (proj1 (is_local_mobile_spec _) Hl) as Hf.
    split; [|by apply local_not_mobile].
    apply not_true_is_false. intros Hc%is_cnic_spec.
    by rewrite (cnic_not_local _ Hc) in Hl.
Qed.

(** X7: the local and the international spelling of one number are
    classified alike: [03] and [923] in front of the same nine digits
    both give the mobile number [923...]. *)
Theorem classify_query_same_number (ds : str) :
  digits 9 ds →
  classify_query (lit "03" ++ ds) = Ok (lit "mobile", lit "923" ++ ds)
  ∧ classify_query (lit "923" ++ ds) = Ok (lit "mobile", lit "923" ++ ds).
Proof.
  intros Hds.
  assert (Hloc : local_mobile_format (lit "03" ++ ds)) by (exists ds; done).
  assert (Hm : mobile_format (lit "923" ++ ds)).
  { exact (local_rewritten _ Hloc). }
  assert (Hs : strip (lit "03" ++ ds) = lit "03" ++ ds).
  { apply strip_decimal. destruct Hds as [_ Hds].
    repeat (apply Forall_cons; split;
            [apply isdecimal_ascii; vm_compute; split; discriminate|]).
    done. }
  split.
  - rewrite classify_query_cases, Hs.
    assert (is_cnic (lit "03" ++ ds) = false) as ->.
    { apply not_true_is_false. intros Hc%is_cnic_spec.
      pose proof (proj2 (is_local_mobile_spec _) Hloc) as Hl.
      by rewrite (cnic_not_local _ Hc) in Hl. }
    by rewrite (local_not_mobile _ Hloc), (proj2 (is_local_mobile_spec _) Hloc).
  - rewrite classify_query_cases.
    rewrite (strip_decimal _ (mobile_format_decimal _ Hm)).
    by rewrite (mobile_not_cnic _ Hm), (proj2 (is_mobile_spec _) Hm).
Qed.
End ClassifierMore.

Lemma classify_query_international_witness :
  classify_query (U := ascii_tables) (lit " 923001234567")
  = Ok (lit "mobile", lit "923001234567").
Proof.
  apply (classify_query_international (U := ascii_tables)
           (lit " 923001234567") (lit "3001234567")).
  - reflexivity.
  - split; [reflexivity|]. by repeat constructor.
Defined.

Lemma classify_query_well_formed_witness :
  (lit "mobile" = lit "cnic"
   ∧ cnic_format (U := ascii_tables) (lit "923001234567"))
  ∨ (lit "mobile" = lit "mobile"
     ∧ mobile_format (U := ascii_tables) (lit "923001234567")).
Proof.
  apply (classify_query_well_formed (U := ascii_tables)
           (lit "03001234567") (lit "mobile") (lit "923001234567")).
  reflexivity.
Defined.

Lemma classify_query_stable_witness :
  classify_query (U := ascii_tables) (lit "923001234567")
  = Ok (lit "mobile", lit "923001234567").
Proof.
  apply (classify_query_stable (U := ascii_tables) (lit "03001234567")).
  reflexivity.
Defined.

Lemma classify_query_padding_witness :
  classify_query (U := ascii_tables) (lit " " ++ lit "1234567890123" ++ lit "  ")
  = classify_query (U := ascii_tables) (lit "1234567890123").
Proof.
  apply (classify_query_padding (U := ascii_tables)
           (lit " ") (lit "1234567890123") (lit "  "));
    by repeat constructor.
Defined.

Lemma classify_query_same_number_witness :
  classify_query (U := ascii_tables) (lit "03" ++ lit "001234567")
  = Ok (lit "mobile", lit "923" ++ lit "001234567")
  ∧ classify_query (U := ascii_tables) (lit "923" ++ lit "001234567")
    = Ok (lit "mobile", lit "923" ++ lit "001234567").
Proof.
  apply (classify_query_same_number (U := ascii_tables) (lit "001234567")).
  split; [reflexivity|]. by repeat constructor.
Defined.

(** ** Table parser *)
Section ParserMore.
Context `{U : UnicodeDB} `{HP : HtmlParser}.

(** The result of the parser, read on the selected table. *)
Lemma parse_table_cases html results :
  parse_table html = Ok results →
  results =
  match selected_table html with
  | None => []
  | Some table =>
      match find (lit "tbody") None table with
      | None => []
      | Some tbody => first_seen ∅ (row_record <$> table_rows tbody)
      end
  end.
Proof.
  destruct (selected_table html) as [table|] eqn:Htable.
  - destruct (find (lit "tbody") None table) as [tbody|] eqn:Htbody.
    + rewrite (parse_table_rows _ table tbody Htable Htbody). by intros [= <-].
    + unfold selected_table in Htable. unfold parse_table.
      destruct (BeautifulSoup html) as [soup|e]; [|done].
      cbn [mbind result_bind]. rewrite Htable, Htbody. by intros [= <-].
  - unfold selected_table in Htable. unfold parse_table.
    destruct (BeautifulSoup html) as [soup|e]; [|done].
    cbn [mbind result_bind]. rewrite Htable. by intros [= <-].
Qed.

(** The parser raises exactly when the library rejects the text, with
    the exception of the library. *)
Lemma parse_table_raise html e :
  parse_table html = Raise e ↔ html_parser html = Raise e.
Proof.
  unfold parse_table, BeautifulSoup.
  destruct (html_parser html) as [contents|e']; cbn [mbind result_bind mret result_ret].
  - split; [|done].
    destruct (or_else _ _) as [table|]; [|by cbn].
    destruct (find (lit "tbody") None table) as [tbody|]; [|by cbn].
    by destruct (for_rows_first_seen (find_all (lit "tr") None tbody) [] ∅)
      as [seen' ->].
  - split; by intros [= ->].
Qed.

Lemma first_seen_sublist seen rows : first_seen seen rows `sublist_of` rows.
Proof.
  revert seen. induction rows as [|r rows IH]; intros seen; simpl; [done|].
  destruct (bool_decide (row_key r ∈ seen)).
  - by apply sublist_cons.
  - by apply sublist_skip.
Qed.

(** Every record of a result is the record of a row element. *)
Lemma parse_table_from_row html results r :
  parse_table html = Ok results →
  r ∈ results →
  ∃ tr, r = row_record tr.
Proof.
  intros ->%parse_table_cases.
  destruct (selected_table html) as [table|]; [|by intros ?%elem_of_nil].
  destruct (find (lit "tbody") None table) as [tbody|];
    [|by intros ?%elem_of_nil].
  intros [_ Hin]%first_seen_fresh.
  apply list_elem_of_fmap in Hin as (tr & -> & _). by exists tr.
Qed.

(** X8: in every result of the parser the keys (mobile, cnic, name)
    are pairwise distinct, whatever the document is. *)
Theorem parse_table_unique_keys (html : str) (results : list Row) :
  parse_table html = Ok results →
  NoDup (row_key <$> results).
Proof.
  intros ->%parse_table_cases.
  destruct (selected_table html) as [table|]; [|constructor].
  destruct (find (lit "tbody") None table) as [tbody|]; [|constructor].
  apply first_seen_NoDup.
Qed.

(** X9: the parser neither invents, reorders nor loses anything: the
    result is a sublist of the records of the body's rows, in their
    order, and the key of every row is the key of a record of the
    result. *)
Theorem parse_table_sublist_complete
    (html : str) (table tbody : PageElement) (results : list Row) :
  selected_table html = Some table →
  find (lit "tbody") None table = Some tbody →
  parse_table html = Ok results →
  results `sublist_of` (row_record <$> table_rows tbody)
  ∧ length results ≤ length (table_rows tbody)
  ∧ (∀ tr, tr ∈ table_rows tbody →
           ∃ r, r ∈ results ∧ row_key r = row_key (row_record tr)).
Proof.
  intros Htable Htbody. rewrite (parse_table_rows _ _ _ Htable Htbody).
  intros [= <-].
  pose proof (first_seen_sublist ∅ (row_record <$> table_rows tbody)) as Hsub.
  split; [done|]. split.
  { apply sublist_length in Hsub. by rewrite length_fmap in Hsub. }
  intros tr [i Hi]%list_elem_of_lookup.
  destruct (first_seen_first ∅ (row_record <$> table_rows tbody) i (row_record tr))
    as (f & rf & _ & _ & Hkey & _ & Hin & _).
  - by rewrite list_lookup_fmap, Hi.
  - apply not_elem_of_empty.
  - by exists rf.
Qed.

(** X10: a row without [td] cells, such as a header row made of [th]
    cells, is not skipped: the result then holds the record whose four
    fields are all [None]. *)
Theorem parse_table_empty_row
    (html : str) (table tbody tr : PageElement) (results : list Row) :
  selected_table html = Some table →
  find (lit "tbody") None table = Some tbody →
  tr ∈ table_rows tbody →
  find_all (lit "td") None tr = [] →
  parse_table html = Ok results →
  {| mobile := None; name := None; cnic := None; address := None |} ∈ results.
Proof.
  intros Htable Htbody [i Hi]%list_elem_of_lookup Htd.
  rewrite (parse_table_rows _ _ _ Htable Htbody). intros [= <-].
  assert (Hrec : row_record tr
                 = {| mobile := None; name := None; cnic := None; address := None |}).
  { unfold row_record, row_cols. by rewrite Htd. }
  destruct (first_seen_first ∅ (row_record <$> table_rows tbody) i (row_record tr))
    as (f & rf & _ & Hf & Hkey & _ & Hin & _).
  - by rewrite list_lookup_fmap, Hi.
  - apply not_elem_of_empty.
  - rewrite list_lookup_fmap in Hf.
    destruct (table_rows tbody !! f) as [tf|]; [|done].
    injection Hf as <-. rewrite Hrec in Hkey.
    assert (Hnil : row_cols tf = []).
    { injection Hkey as Hm _ _. unfold row_record in Hm. simpl in Hm.
      by destruct (row_cols tf). }
    unfold row_record in Hin. by rewrite Hnil in Hin.
Qed.

(** X11: a record never has a gap: when a field is [None] so is every
    field of a later column (the columns are mobile, name, cnic,
    address). *)
Theorem parse_table_trailing_none (html : str) (results : list Row) (r : Row) :
  parse_table html = Ok results →
  r ∈ results →
  (mobile r = None → name r = None)
  ∧ (name r = None → cnic r = None)
  ∧ (cnic r = None → address r = None).
Proof.
  intros Hparse Hin.
  destruct (parse_table_from_row _ _ _ Hparse Hin) as [tr ->].
  unfold row_record. simpl.
  repeat split; intros Hnone%lookup_ge_None; apply lookup_ge_None; lia.
Qed.
End ParserMore.

Lemma parse_table_unique_keys_witness :
  NoDup (row_key <$> [row_record (U := ascii_tables) (person_row "Ali" "Lahore")]).
Proof.
  apply (parse_table_unique_keys (U := ascii_tables)
           (HP := fixed_document same_key_document) []).
  by vm_compute.
Defined.

Lemma parse_table_sublist_complete_witness :
  [row_record (U := ascii_tables) (person_row "Ali" "Lahore")]
    `sublist_of` (row_record (U := ascii_tables)
                    <$> [person_row "Ali" "Lahore"; person_row "Ali" "Karachi"])
  ∧ 1 ≤ 2.
Proof.
  destruct (parse_table_sublist_complete (U := ascii_tables)
              (HP := fixed_document same_key_document) []
              (results_table [body [person_row "Ali" "Lahore";
                                    person_row "Ali" "Karachi"]])
              (body [person_row "Ali" "Lahore"; person_row "Ali" "Karachi"])
              [row_record (U := ascii_tables) (person_row "Ali" "Lahore")])
    as (Hsub & Hlen & _).
  - reflexivity.
  - reflexivity.
  - by vm_compute.
  - split; [exact Hsub|exact Hlen].
Defined.

Lemma parse_table_empty_row_witness :
  {| mobile := None; name := None; cnic := None; address := None |}
  ∈ [ {| mobile := None; name := None; cnic := None; address := None |};
      row_record (U := ascii_tables) (person_row "Ali" "Lahore") ].
Proof.
  apply (parse_table_empty_row (U := ascii_tables)
           (HP := fixed_document header_document) []
           (results_table
              [body [row [Tag (lit "th") [] [NavigableString (lit "Mobile")];
                          Tag (lit "th") [] [NavigableString (lit "Name")]];
                     person_row "Ali" "Lahore"]])
           (body [row [Tag (lit "th") [] [NavigableString (lit "Mobile")];
                       Tag (lit "th") [] [NavigableString (lit "Name")]];
                  person_row "Ali" "Lahore"])
           (row [Tag (lit "th") [] [NavigableString (lit "Mobile")];
                 Tag (lit "th") [] [NavigableString (lit "Name")]])).
  - reflexivity.
  - reflexivity.
  - apply list_elem_of_lookup. by exists 0.
  - reflexivity.
  - by vm_compute.
Defined.

Lemma parse_table_trailing_none_witness :
  (mobile short_row_record = None → name short_row_record = None)
  ∧ (name short_row_record = None → cnic short_row_record = None)
  ∧ (cnic short_row_record = None → address short_row_record = None).
Proof.
  apply (parse_table_trailing_none (U := ascii_tables)
           (HP := fixed_document
              [results_table [body [row [cell "03001234567"; cell " Ali"]]]])
           [] [short_row_record] short_row_record).
  - by vm_compute.
  - by left.
Defined.

(** ** Rate limiter and fetcher *)
Section FetcherMore.
Context `{CFG : Config} `{RT : Runtime}.

Lemma rate_limit_wait_quiet (st : State) :
  ∃ evs, trace (rate_limit_wait st) = trace st ++ evs
         ∧ Forall limiter_event evs
         ∧ length (filter (λ e, is_sleep e = true) evs) ≤ 1.
Proof.
  destruct (rate_limit_wait_trace st) as (t & _ & Htr). rewrite Htr.
  eexists. split; [reflexivity|].
  destruct (Qlt_le_dec _ _) as [Hlt|Hge].
  - split; [|cbn; repeat case_decide; try done; simpl; lia].
    repeat constructor. simpl. by apply fround_sub_pos.
  - split; [|cbn; repeat case_decide; try done; simpl; lia].
    by repeat constructor.
Qed.

Lemma fetch_upstream_on (query_value : str) (st : State) :
  ALLOW_UPSTREAM = true →
  fetch_upstream query_value st
  = (match (session_post (upstream_request query_value)
              (world (rate_limit_wait st))).1 with
     | Raise e => Raise e
     | Ok resp =>
         if bool_decide (400 ≤ status_code resp < 600)%Z
         then Raise (HTTPError (http_error_msg resp))
         else Ok (text resp)
     end,
     {| LAST_CALL_ts := LAST_CALL_ts (rate_limit_wait st);
        world := (session_post (upstream_request query_value)
                    (world (rate_limit_wait st))).2;
        trace := trace (rate_limit_wait st)
                 ++ [EvPost (upstream_request query_value)] |}).
Proof.
  intros Hon. unfold fetch_upstream, call_post, raise_for_status.
  rewrite Hon. simpl.
  change {| url := rstrip_slash TARGET_BASE ++ TARGET_PATH;
            headers := _; data := _; timeout := 20 |}
    with (upstream_request query_value).
  destruct (session_post (upstream_request query_value)
              (world (rate_limit_wait st))) as [[resp|e] w]; simpl; [|done].
  by destruct (bool_decide _).
Qed.

(** X12: the limiter sleeps at most once in a call, never for a
    duration that is not positive, and makes no network request: what
    it adds to the trace are clock readings and at most one sleep of
    positive length. *)
Theorem rate_limit_wait_events (st : State) :
  ∃ evs, trace (rate_limit_wait st) = trace st ++ evs
         ∧ Forall (λ e, match e with
                        | EvTime _ => True
                        | EvSleep d => (0 < d)%Q
                        | EvPost _ => False
                        end) evs
         ∧ length (filter (λ e, is_sleep e = true) evs) ≤ 1.
Proof.
  destruct (rate_limit_wait_trace st) as (t & _ & Htr). rewrite Htr.
  eexists. split; [reflexivity|].
  destruct (Qlt_le_dec _ _) as [Hlt|Hge].
  - split; [|cbn; repeat case_decide; try done; simpl; lia].
    repeat constructor. by apply fround_sub_pos.
  - split; [|cbn; repeat case_decide; try done; simpl; lia].
    by repeat constructor.
Qed.

(** X13: with [ALLOW_UPSTREAM] on, a fetch makes exactly one network
    request, after the limiter has finished: the request goes to
    [TARGET_BASE] without trailing slashes followed by [TARGET_PATH],
    carries the value unchanged in the field [search_query], and has a
    timeout of 20 seconds; the limiter's timestamp is the one the
    limiter recorded. *)
Theorem fetch_upstream_one_post (query_value : str) (st : State) :
  ALLOW_UPSTREAM = true →
  ∃ evs req,
    trace (rate_limit_wait st) = trace st ++ evs
    ∧ Forall (λ e, ∀ r, e ≠ EvPost r) evs
    ∧ trace (fetch_upstream query_value st).2 = trace st ++ evs ++ [EvPost req]
    ∧ url req = rstrip_slash TARGET_BASE ++ TARGET_PATH
    ∧ data req = [(lit "search_query", query_value)]
    ∧ timeout req = 20%Q
    ∧ LAST_CALL_ts (fetch_upstream query_value st).2
      = LAST_CALL_ts (rate_limit_wait st).
Proof.
  intros Hon. destruct (rate_limit_wait_quiet st) as (evs & Htr & Hq & _).
  exists evs, (upstream_request query_value).
  split; [done|]. split.
  { eapply Forall_impl; [exact Hq|]. intros [t|d|r] He r' Heq; by simplify_eq. }
  rewrite (fetch_upstream_on _ _ Hon). simpl. rewrite Htr.
  by rewrite <- app_assoc.
Qed.

(** X14: with [ALLOW_UPSTREAM] on, a fetch returns a page exactly when
    the request was answered with a status outside 400..599, and the
    page is the text of that answer; it raises exactly when the request
    raised, with the same exception, or was answered with a status in
    400..599, with the [HTTPError] of that answer. *)
Theorem fetch_upstream_outcome (query_value : str) (st : State) :
  ALLOW_UPSTREAM = true →
  let answer := (session_post (upstream_request query_value)
                   (world (rate_limit_wait st))).1 in
  (∀ page, (fetch_upstream query_value st).1 = Ok page
           ↔ ∃ resp, answer = Ok resp
                     ∧ ¬ (400 ≤ status_code resp < 600)%Z
                     ∧ text resp = page)
  ∧ (∀ e, (fetch_upstream query_value st).1 = Raise e
          ↔ answer = Raise e
            ∨ ∃ resp, answer = Ok resp
                      ∧ (400 ≤ status_code resp < 600)%Z
                      ∧ e = HTTPError (http_error_msg resp)).
Proof.
  intros Hon answer. rewrite (fetch_upstream_on _ _ Hon). simpl.
  fold answer. destruct answer as [resp|e0].
  - case_bool_decide as Hs.
    + split.
      * intros page. split; [done|]. intros (resp' & [= <-] & Hn & _). done.
      * intros e. split.
        -- intros [= <-]. right. by exists resp.
        -- intros [?|(resp' & [= <-] & _ & ->)]; done.
    + split.
      * intros page. split.
        -- intros [= <-]. by exists resp.
        -- by intros (resp' & [= <-] & _ & <-).
      * intros e. split; [done|].
        intros [?|(resp' & [= <-] & Hin & _)]; done.
  - split.
    + intros page. split; [done|]. by intros (resp & ? & _).
    + intros e. split.
      * intros [= <-]. by left.
      * intros [[= <-]|(resp & ? & _)]; done.
Qed.
End FetcherMore.

(** X15: trailing slashes of [TARGET_BASE] make no difference to a
    fetch. *)
Theorem fetch_upstream_trailing_slashes `{RT : Runtime}
    (base slashes path : str) (allow : bool) (interval : Q)
    (query_value : str) (st : State) :
  Forall (λ c, c = chr "/") slashes →
  fetch_upstream
    (CFG := {| TARGET_BASE := base ++ slashes; TARGET_PATH := path;
               ALLOW_UPSTREAM := allow; MIN_INTERVAL := interval |})
    query_value st
  = fetch_upstream
      (CFG := {| TARGET_BASE := base; TARGET_PATH := path;
                 ALLOW_UPSTREAM := allow; MIN_INTERVAL := interval |})
      query_value st.
Proof.
  intros Hs. unfold fetch_upstream. simpl.
  assert (Heq : rstrip_slash (base ++ slashes) = rstrip_slash base).
  { apply rstrip_with_app. eapply Forall_impl; [exact Hs|].
    intros c ->. by apply bool_decide_eq_true_2. }
  by rewrite Heq.
Qed.

Section FetcherClock.
Context `{CFG : Config} `{RT : Runtime}.
Variable wall : World → Q.
Hypothesis time_time_reads : ∀ w,
  (wall w <= (time_time w).1 ∧ (time_time w).1 <= wall (time_time w).2)%Q.
Hypothesis time_sleep_waits : ∀ d w, (wall w + d <= wall (time_sleep d w))%Q.

(** X16: on a clock that does not run backwards, a fetch with
    [ALLOW_UPSTREAM] on moves the limiter's timestamp forward by at
    least [MIN_INTERVAL] (the float), whether the request succeeds or
    fails, when the limiter's two float subtractions lose nothing on
    the unsafe side: the elapsed time is not rounded up and the sleep
    is not rounded down. *)
Theorem fetch_upstream_advances (query_value : str) (st : State) :
  ALLOW_UPSTREAM = true →
  let now := (time_time (world st)).1 in
  let elapsed := fround (now - LAST_CALL_ts st) in
  (elapsed <= now - LAST_CALL_ts st)%Q →
  (min_interval - elapsed <= fround (min_interval - elapsed))%Q →
  (LAST_CALL_ts st + min_interval
   <= LAST_CALL_ts (fetch_upstream query_value st).2)%Q.
Proof using time_time_reads time_sleep_waits.
  intros Hon now elapsed Hup Hdown. rewrite (fetch_upstream_on _ _ Hon). simpl.
  apply (rate_limit_wait_spacing wall time_time_reads time_sleep_waits st
           Hup Hdown).
Qed.
End FetcherClock.

Lemma fetch_upstream_one_post_witness :
  ∃ req,
    last (trace (fetch_upstream (CFG := example_config true)
                   (lit "923001234567") (clock_state 100)).2)
    = Some (EvPost req)
    ∧ data req = [(lit "search_query", lit "923001234567")].
Proof.
  destruct (fetch_upstream_one_post (CFG := example_config true)
              (RT := clock_runtime) (lit "923001234567") (clock_state 100))
    as (evs & req & _ & _ & Htr & _ & Hdata & _).
  - reflexivity.
  - exists req. split; [|exact Hdata].
    rewrite Htr, app_assoc. apply last_snoc.
Defined.

(** A page answered with status 404 is not returned. *)
Lemma fetch_upstream_outcome_witness :
  (fetch_upstream (CFG := example_config true) (lit "923001234567")
     (answering_state 404 (lit "<html>not found</html>") 100)).1
  = Raise (HTTPError (lit "error")).
Proof.
  refine (proj2 (proj2 (fetch_upstream_outcome (CFG := example_config true)
                          (RT := answering_runtime 404 (lit "<html>not found</html>"))
                          (lit "923001234567")
                          (answering_state 404 (lit "<html>not found</html>") 100)
                          _) _) _).
  - reflexivity.
  - right. exists {| status_code := 404; text := lit "<html>not found</html>" |}.
    split; [reflexivity|]. split; [simpl; lia|reflexivity].
Defined.

Lemma fetch_upstream_trailing_slashes_witness :
  fetch_upstream
    (CFG := {| TARGET_BASE := lit "https://pakistandatabase.com" ++ lit "//";
               TARGET_PATH := lit "/databases/sim.php";
               ALLOW_UPSTREAM := true; MIN_INTERVAL := 1 |})
    (lit "923001234567") (clock_state 100)
  = fetch_upstream (CFG := example_config true)
      (lit "923001234567") (clock_state 100).
Proof.
  apply (fetch_upstream_trailing_slashes (RT := clock_runtime)
           (lit "https://pakistandatabase.com") (lit "//")
           (lit "/databases/sim.php") true 1
           (lit "923001234567") (clock_state 100)).
  by repeat constructor.
Defined.

Lemma fetch_upstream_advances_witness :
  (LAST_CALL_ts (tie_state 100 (401 # 4)) + 1
   <= LAST_CALL_ts (fetch_upstream (CFG := example_config true)
                      (lit "923001234567") (tie_state 100 (401 # 4))).2)%Q.
Proof.
  apply (fetch_upstream_advances (CFG := example_config true)
           (RT := tie_runtime) (λ w, w)).
  - intros w. simpl. split; apply Qle_refl.
  - intros d w. simpl. apply Qle_refl.
  - reflexivity.
  - by vm_compute.
  - by vm_compute.
Defined.

(** ** The lookup routes *)
Section RoutesMore.
Context `{U : UnicodeDB} `{HP : HtmlParser} `{CFG : Config} `{RT : Runtime}.

(** The route for a query string that carries a value does what the
    path route does with that value. *)
Lemma api_lookup_get_path r st q :
  request_query r = Some q → q ≠ [] →
  api_lookup_get r st = api_lookup_path q r st.
Proof.
  intros Hq Hne. unfold api_lookup_get, api_lookup_path. rewrite Hq.
  by destruct q.
Qed.

(** The path route, with the parser's result read on the page. *)
Lemma api_lookup_path_cases q r st :
  api_lookup_path q r st =
  match classify_query q with
  | Raise e => ((respond_json (error_object e) (request_pretty r), 500%Z), st)
  | Ok (qtype, normalized) =>
      match (fetch_upstream normalized st).1 with
      | Raise e =>
          ((respond_json (error_object e) (request_pretty r), 500%Z),
           (fetch_upstream normalized st).2)
      | Ok html =>
          match parse_table html with
          | Ok results =>
              ((respond_json (make_response_object normalized qtype results)
                  (request_pretty r), 200%Z),
               (fetch_upstream normalized st).2)
          | Raise e => ((respond_json (error_object e) (request_pretty r), 500%Z),
                        (fetch_upstream normalized st).2)
          end
      end
  end.
Proof.
  unfold api_lookup_path.
  destruct (classify_query q) as [[qtype normalized]|e]; [|done].
  by destruct (fetch_upstream normalized st) as [[html|e] st'].
Qed.

(** A request posted by a fetch carries the value the fetch was given. *)
Lemma fetch_upstream_posts query_value st req :
  EvPost req ∈ trace (fetch_upstream query_value st).2 →
  EvPost req ∈ trace st ∨ data req = [(lit "search_query", query_value)].
Proof.
  destruct ALLOW_UPSTREAM eqn:Hallow.
  - rewrite (fetch_upstream_on _ _ Hallow). simpl.
    destruct (rate_limit_wait_quiet st) as (evs & -> & Hq & _).
    rewrite !elem_of_app, list_elem_of_singleton.
    intros [[?|Hin]|[= ->]]; [by left| |by right].
    by apply (proj1 (Forall_forall _ _) Hq) in Hin.
  - unfold fetch_upstream. rewrite Hallow. simpl. by left.
Qed.

(** X17: a request without a query value, or with a value that the
    classifier refuses, leaves the state as it was: the limiter is not
    touched and nothing is sent upstream. *)
Theorem api_lookup_get_refused_untouched (r : Request) (st : State) :
  truthy (request_query r) = false
  ∨ (∃ q e, request_query r = Some q ∧ classify_query q = Raise e) →
  (api_lookup_get r st).2 = st.
Proof.
  unfold api_lookup_get.
  destruct (request_query r) as [[|c q]|]; [done| |done].
  intros [?|(q' & e & [= <-] & ->)]; done.
Qed.

(** X18: an answer with status 200 is the envelope of a classified
    query: [query] is the normalized value, not the text received,
    [query_type] is its kind and the value has the format of the kind,
    [results_count] is the number of [results], and [results] are the
    records parsed from the page fetched for the normalized value,
    their keys pairwise distinct. *)
Theorem api_lookup_get_ok_shape (r : Request) (st : State) :
  (api_lookup_get r st).1.2 = 200%Z →
  ∃ q qtype normalized html results,
    request_query r = Some q
    ∧ classify_query q = Ok (qtype, normalized)
    ∧ ((qtype = lit "cnic" ∧ cnic_format normalized)
       ∨ (qtype = lit "mobile" ∧ mobile_format normalized))
    ∧ (fetch_upstream normalized st).1 = Ok html
    ∧ parse_table html = Ok results
    ∧ NoDup (row_key <$> results)
    ∧ (api_lookup_get r st).1.1
      = respond_json
          (JDict [ (lit "query", JStr normalized);
                   (lit "query_type", JStr qtype);
                   (lit "results_count", JInt (Z.of_nat (length results)));
                   (lit "results", JList (json_of_row <$> results));
                   (lit "developer", JStr (lit "Savitar")) ])
          (request_pretty r).
Proof.
  destruct (request_query r) as [[|c q]|] eqn:Hq;
    [by unfold api_lookup_get; rewrite Hq| |by unfold api_lookup_get; rewrite Hq].
  rewrite (api_lookup_get_path r st (c :: q) Hq) by done.
  rewrite api_lookup_path_cases.
  destruct (classify_query (c :: q)) as [[qtype normalized]|e] eqn:Hc; [|done].
  destruct (fetch_upstream normalized st).1 as [html|e] eqn:Hf; [|done].
  destruct (parse_table html) as [results|e] eqn:Hp; [|done].
  simpl. intros _.
  exists (c :: q), qtype, normalized, html, results.
  split; [done|]. split; [done|].
  split; [by apply (classify_query_format (c :: q))|].
  split; [done|]. split; [done|].
  split; [|done].
  rewrite (parse_table_cases _ _ Hp).
  destruct (selected_table html) as [table|]; [|constructor].
  destruct (find (lit "tbody") None table) as [tbody|]; [|constructor].
  apply first_seen_NoDup.
Qed.


(** X20: whatever the request, the only values sent upstream are
    normalized ones: every network request that the route adds to the
    trace carries in [search_query] thirteen digits or [92] followed
    by ten digits. *)
Theorem api_lookup_get_posts_normalized
    (r : Request) (st : State) (req : PostRequest) :
  EvPost req ∈ trace (api_lookup_get r st).2 →
  EvPost req ∈ trace st
  ∨ ∃ normalized,
      data req = [(lit "search_query", normalized)]
      ∧ (cnic_format normalized ∨ mobile_format normalized).
Proof.
  destruct (request_query r) as [[|c q]|] eqn:Hq;
    [unfold api_lookup_get; rewrite Hq; by left|
    |unfold api_lookup_get; rewrite Hq; by left].
  rewrite (api_lookup_get_path r st (c :: q) Hq) by done.
  rewrite api_lookup_path_cases.
  destruct (classify_query (c :: q)) as [[qtype normalized]|e] eqn:Hc;
    [|by left].
  assert (Hfmt : cnic_format normalized ∨ mobile_format normalized).
  { destruct (classify_query_format _ _ _ Hc) as [[_ ?]|[_ ?]]; eauto. }
  assert (Hpost : EvPost req ∈ trace (fetch_upstream normalized st).2 →
                  EvPost req ∈ trace st
                  ∨ ∃ nv, data req = [(lit "search_query", nv)]
                          ∧ (cnic_format nv ∨ mobile_format nv)).
  { intros [?|?]%fetch_upstream_posts; [by left|right; eauto]. }
  destruct (fetch_upstream normalized st).1 as [html|e]; [|done].
  by destruct (parse_table html).
Qed.

(** X21: the route that takes the query from the path and the route
    that takes it from the query string give the same answer, and
    leave the same state, for the same value. *)
Theorem api_lookup_path_same_as_get (r : Request) (st : State) (q : str) :
  request_query r = Some q →
  q ≠ [] →
  api_lookup_path q r st = api_lookup_get r st.
Proof. intros Hq Hne. symmetry. by apply api_lookup_get_path. Qed.
End RoutesMore.

Section PostRoute.
Context `{U : UnicodeDB} `{HP : HtmlParser} `{CFG : Config} `{RT : Runtime}.

Lemma data_get_absent items k :
  (∀ v, (k, v) ∉ items) →
  data_get (PDict items) k = Returned PNone.
Proof.
  intros Habs. unfold data_get.
  assert (Hnil : filter (λ p : str * pyval, p.1 = k) items = []).
  { induction items as [|[k' v] items IH]; [done|].
    rewrite filter_cons. case_decide as Hk; simpl in Hk.
    - subst k'. destruct (Habs v). by left.
    - apply IH. intros v' Hin. apply (Habs v'). by right. }
  by rewrite Hnil.
Qed.

(** X22: a posted JSON object whose first true value among [query],
    [number] and [value] is a string is answered as the path route
    answers that string, with the same effect on the state. *)
Theorem api_lookup_post_same_as_path
    (r : Request) (body : option pyval) (st : State) (q : str) :
  posted_query (posted_data body) = Returned (PStr q) →
  q ≠ [] →
  api_lookup_post r body st
  = (Returned (api_lookup_path q r st).1, (api_lookup_path q r st).2).
Proof.
  intros Hq Hne. unfold api_lookup_post, api_lookup_path. rewrite Hq.
  destruct q as [|c q]; [done|]. simpl.
  destruct (classify_query (c :: q)) as [[qtype normalized]|e]; [|done].
  destruct (fetch_upstream normalized st) as [[html|e] st']; [|done].
  by destruct (parse_table html).
Qed.

(** X23: a post without a usable body is answered 400 and leaves the
    state as it was: no body or a body that is not JSON, a JSON value
    that is false ([null], [false], [0], an empty string, list or
    object), or an object that has none of the keys [query], [number]
    and [value]. *)
Theorem api_lookup_post_missing (r : Request) (body : option pyval) (st : State) :
  body = None
  ∨ (∃ v, body = Some v ∧ py_bool v = false)
  ∨ (∃ items, body = Some (PDict items)
              ∧ ∀ k v, (k, v) ∈ items →
                       k ∉ [lit "query"; lit "number"; lit "value"]) →
  api_lookup_post r body st
  = (Returned
       (respond_json
          (JDict [ (lit "error",
                    JStr (lit "Send JSON {" ++ dquote ++ lit "query" ++ dquote
                          ++ lit ":" ++ dquote ++ lit "..." ++ dquote ++ lit "}"));
                   (lit "developer", JStr (lit "Savitar")) ])
          (request_pretty r), 400%Z), st).
Proof.
  intros Hbody.
  assert (Hq : posted_query (posted_data body) = Returned PNone).
  { destruct Hbody as [->|[(v & -> & Hv)|(items & -> & Hkeys)]].
    - reflexivity.
    - unfold posted_data. by rewrite Hv.
    - assert (Hget : ∀ k, k ∈ [lit "query"; lit "number"; lit "value"] →
                          data_get (PDict items) k = Returned PNone).
      { intros k Hk. apply data_get_absent. intros v Hin.
        by apply (Hkeys k v Hin). }
      unfold posted_data.
      destruct (py_bool (PDict items)); unfold posted_query;
        rewrite ?Hget by (apply (bool_decide_unpack _); by vm_compute);
        try reflexivity.
      all: by rewrite !data_get_absent by (intros ? ?%elem_of_nil; done). }
  unfold api_lookup_post. by rewrite Hq.
Qed.

(** X24: when the value chosen from a posted object is true but is not
    a string (a number, [true], a list, an object), the answer is 500
    with a detail naming the missing [strip] method of its type, and
    the state is as it was: nothing is sent upstream. *)
Theorem api_lookup_post_not_a_string
    (r : Request) (body : option pyval) (st : State) (q : pyval) :
  posted_query (posted_data body) = Returned q →
  py_bool q = true →
  (∀ s, q ≠ PStr s) →
  api_lookup_post r body st
  = (Returned
       (respond_json
          (JDict [ (lit "error", JStr (lit "Fetch failed"));
                   (lit "detail",
                    JStr (lit "'" ++ type_name q
                          ++ lit "' object has no attribute 'strip'"));
                   (lit "developer", JStr (lit "Savitar")) ])
          (request_pretty r), 500%Z), st).
Proof.
  intros Hq Hb Hs. unfold api_lookup_post. rewrite Hq, Hb. simpl.
  destruct q; try done. by destruct (Hs s).
Qed.

(** X25: a posted JSON value that is true but is not an object (a
    number, [true], a string, a list) is not answered by the route at
    all: the [AttributeError] of the missing [get] method leaves the
    handler, before the classifier runs, and the state is as it was. *)
Theorem api_lookup_post_not_an_object
    (r : Request) (v : pyval) (st : State) :
  py_bool v = true →
  (∀ items, v ≠ PDict items) →
  api_lookup_post r (Some v) st
  = (Escaped (AttributeError (lit "'" ++ type_name v
                              ++ lit "' object has no attribute 'get'")), st).
Proof.
  intros Hb Hd. unfold api_lookup_post, posted_data. rewrite Hb.
  destruct v; try done. by destruct (Hd items).
Qed.
End PostRoute.

(** *** The routes on small requests *)

Lemma api_lookup_get_refused_untouched_witness :
  (api_lookup_get (U := ascii_tables) (HP := fixed_document distinct_document)
     (CFG := example_config true)
     {| args := [(lit "query", lit "abc")] |} (clock_state 100)).2
  = clock_state 100.
Proof.
  apply (api_lookup_get_refused_untouched (U := ascii_tables)
           (HP := fixed_document distinct_document)
           (CFG := example_config true) (RT := clock_runtime)).
  right. exists (lit "abc"), (ValueError invalid_query_message).
  split; reflexivity.
Defined.

Lemma api_lookup_get_ok_shape_witness :
  ∃ normalized results,
    (api_lookup_get (U := ascii_tables) (HP := fixed_document distinct_document)
       (CFG := example_config true)
       {| args := [(lit "value", lit " 03001234567")] |} (clock_state 100)).1.1
    = respond_json
        (JDict [ (lit "query", JStr normalized);
                 (lit "query_type", JStr (lit "mobile"));
                 (lit "results_count", JInt (Z.of_nat (length results)));
                 (lit "results", JList (json_of_row <$> results));
                 (lit "developer", JStr (lit "Savitar")) ])
        false
    ∧ NoDup (row_key <$> results).
Proof.
  destruct (api_lookup_get_ok_shape (U := ascii_tables)
              (HP := fixed_document distinct_document)
              (CFG := example_config true) (RT := clock_runtime)
              {| args := [(lit "value", lit " 03001234567")] |} (clock_state 100))
    as (q & qtype & normalized & html & results
        & Hq & Hc & _ & _ & _ & Hnd & Hresp).
  - reflexivity.
  - injection Hq as <-. injection Hc as <- <-.
    exists (lit "923001234567"), results. split; [exact Hresp|exact Hnd].
Defined.


Lemma api_lookup_get_posts_normalized_witness :
  EvPost (upstream_request (CFG := example_config true) (lit "923001234567"))
    ∈ trace (clock_state 100)
  ∨ ∃ normalized,
      data (upstream_request (CFG := example_config true) (lit "923001234567"))
      = [(lit "search_query", normalized)]
      ∧ (cnic_format (U := ascii_tables) normalized
         ∨ mobile_format (U := ascii_tables) normalized).
Proof.
  apply (api_lookup_get_posts_normalized (U := ascii_tables)
           (HP := fixed_document distinct_document)
           (CFG := example_config true) (RT := clock_runtime)
           {| args := [(lit "query", lit "03001234567")] |} (clock_state 100)).
  apply list_elem_of_lookup. exists 2. reflexivity.
Defined.

Lemma api_lookup_path_same_as_get_witness :
  api_lookup_path (U := ascii_tables) (HP := fixed_document distinct_document)
    (CFG := example_config true) (lit "1234567890123")
    {| args := [(lit "query", lit "1234567890123")] |} (clock_state 100)
  = api_lookup_get (U := ascii_tables) (HP := fixed_document distinct_document)
      (CFG := example_config true)
      {| args := [(lit "query", lit "1234567890123")] |} (clock_state 100).
Proof.
  apply (api_lookup_path_same_as_get (U := ascii_tables)
           (HP := fixed_document distinct_document)
           (CFG := example_config true) (RT := clock_runtime)).
  - reflexivity.
  - done.
Defined.

Lemma api_lookup_post_same_as_path_witness :
  api_lookup_post (U := ascii_tables) (HP := fixed_document distinct_document)
    (CFG := example_config true) {| args := [] |}
    (Some (PDict [(lit "query", PStr []); (lit "number", PStr (lit "03001234567"))]))
    (clock_state 100)
  = (Returned
       (api_lookup_path (U := ascii_tables)
          (HP := fixed_document distinct_document)
          (CFG := example_config true) (lit "03001234567")
          {| args := [] |} (clock_state 100)).1,
     (api_lookup_path (U := ascii_tables)
        (HP := fixed_document distinct_document)
        (CFG := example_config true) (lit "03001234567")
        {| args := [] |} (clock_state 100)).2).
Proof.
  apply (api_lookup_post_same_as_path (U := ascii_tables)
           (HP := fixed_document distinct_document)
           (CFG := example_config true) (RT := clock_runtime)).
  - reflexivity.
  - done.
Defined.

Lemma api_lookup_post_missing_witness :
  (api_lookup_post (U := ascii_tables) (HP := fixed_document distinct_document)
     (CFG := example_config true) {| args := [] |}
     (Some (PDict [(lit "cnic", PStr (lit "1234567890123"))]))
     (clock_state 100)).2
  = clock_state 100.
Proof.
  rewrite (api_lookup_post_missing (U := ascii_tables)
             (HP := fixed_document distinct_document)
             (CFG := example_config true) (RT := clock_runtime)); [reflexivity|].
  right. right. eexists. split; [reflexivity|].
  intros k v [= -> ->]%list_elem_of_singleton.
  apply (bool_decide_unpack _). by vm_compute.
Defined.

Lemma api_lookup_post_not_a_string_witness :
  api_lookup_post (U := ascii_tables) (HP := fixed_document distinct_document)
    (CFG := example_config true) {| args := [] |}
    (Some (PDict [(lit "query", PInt 3001234567)])) (clock_state 100)
  = (Returned
       (respond_json
          (JDict [ (lit "error", JStr (lit "Fetch failed"));
                   (lit "detail",
                    JStr (lit "'int' object has no attribute 'strip'"));
                   (lit "developer", JStr (lit "Savitar")) ])
          false, 500%Z), clock_state 100).
Proof.
  apply (api_lookup_post_not_a_string (U := ascii_tables)
           (HP := fixed_document distinct_document)
           (CFG := example_config true) (RT := clock_runtime)
           {| args := [] |}
           (Some (PDict [(lit "query", PInt 3001234567)])) (clock_state 100)
           (PInt 3001234567)).
  - reflexivity.
  - reflexivity.
  - done.
Defined.

Lemma api_lookup_post_not_an_object_witness :
  api_lookup_post (U := ascii_tables) (HP := fixed_document distinct_document)
    (CFG := example_config true) {| args := [] |}
    (Some (PList [PStr (lit "03001234567")])) (clock_state 100)
  = (Escaped (AttributeError (lit "'list' object has no attribute 'get'")),
     clock_state 100).
Proof.
  apply (api_lookup_post_not_an_object (U := ascii_tables)
           (HP := fixed_document distinct_document)
           (CFG := example_config true) (RT := clock_runtime)
           {| args := [] |} (PList [PStr (lit "03001234567")]) (clock_state 100)).
  - reflexivity.
  - done.
Defined.
